(** * ScriptureNames: segmentation, extraction protocol, pagination, driver

    A shallow embedding of [text_retriever.py], [names_extractor.py] and
    [pipeline.py].

    Modelling conventions.
    - A Python [str] is a list of 8-bit characters (code points below 256,
      the Latin-1 range); the character classes of [re] and [str.strip]
      are the ones Python uses on those code points.
    - A Python [int] is a [Z]; list lengths and indices are [nat].
    - Code that raises is a computation in an exception-and-state monad
      over the world (files, database tables, generative service).
    - The database is available, and a file can be created and opened for
      writing; a write fails where [json.dump] raises.
    - [print] calls are not modelled. *)

From Stdlib Require Import ZArith Ascii String DecimalString Lia Bool.
From Stdlib Require DecimalPos DecimalZ.
From stdpp Require Import gmap strings list fin_maps.

Local Open Scope nat_scope.

(** ** Strings *)

Abbreviation str := (list ascii).

Definition lit (s : string) : str := list_ascii_of_string s.

Definition ord (c : ascii) : nat := nat_of_ascii c.

Definition between (lo hi n : nat) : bool := (lo <=? n) && (n <=? hi).

(** [str.isspace] on one character. *)
Definition isspace (c : ascii) : bool :=
  let n := ord c in
  between 9 13 n || between 28 32 n || (n =? 133) || (n =? 160).

(** [\d] of [re] on a [str] pattern: the decimal digits. *)
Definition isdigit (c : ascii) : bool := between 48 57 (ord c).

(** [\w] of [re] on a [str] pattern: alphanumerics and the underscore. *)
Definition isword (c : ascii) : bool :=
  let n := ord c in
  between 48 57 n || between 65 90 n || (n =? 95) || between 97 122 n
  || (n =? 170) || (n =? 178) || (n =? 179) || (n =? 181) || (n =? 185)
  || (n =? 186) || between 188 190 n || between 192 214 n
  || between 216 246 n || between 248 255 n.

Definition ascii_eqb (a b : ascii) : bool := Ascii.eqb a b.

(** [s.startswith(prefix)] *)
Fixpoint startswith (prefix s : str) : bool :=
  match prefix, s with
  | [], _ => true
  | _ :: _, [] => false
  | p :: prefix', c :: s' => ascii_eqb p c && startswith prefix' s'
  end.

(** [s.startswith((p1, p2, ...))] *)
Definition startswith_any (prefixes : list str) (s : str) : bool :=
  existsb (fun p => startswith p s) prefixes.

(** [sub in s] *)
Fixpoint contains (sub s : str) : bool :=
  startswith sub s ||
  match s with
  | [] => false
  | _ :: s' => contains sub s'
  end.

Fixpoint lstrip (s : str) : str :=
  match s with
  | [] => []
  | c :: s' => if isspace c then lstrip s' else s
  end.

Definition rstrip (s : str) : str := rev (lstrip (rev s)).

(** [s.strip()] *)
Definition strip (s : str) : str := rstrip (lstrip s).

(** [sep.join(parts)] *)
Fixpoint join (sep : str) (parts : list str) : str :=
  match parts with
  | [] => []
  | [p] => p
  | p :: rest => p ++ sep ++ join sep rest
  end.

(** [s[a:b]] for [0 <= a <= b] *)
Definition slice {A} (s : list A) (a b : nat) : list A := firstn (b - a) (skipn a s).

(** [str(z)], the decimal rendering an f-string uses for an [int]. *)
Definition str_of_Z (z : Z) : str := lit (NilZero.string_of_int (Z.to_int z)).

(** ** Regular expressions of [text_retriever.py] *)

Module Re.

(** [<.*?>]: after the opening bracket, the number of characters up to and
    including the first closing bracket, when no newline comes before it
    ([.] does not match a newline). *)
Fixpoint tag_rest (s : str) : option nat :=
  match s with
  | [] => None
  | c :: s' =>
      if ascii_eqb c ">" then Some 1
      else if ascii_eqb c "010" then None
      else option_map S (tag_rest s')
  end.

(** The scan of [re.sub(r'<.*?>', ' ', s)]: [skip] counts the characters
    of the current match still to be passed over. *)
Fixpoint sub_tags_from (skip : nat) (s : str) : str :=
  match s with
  | [] => []
  | c :: s' =>
      match skip with
      | S k => sub_tags_from k s'
      | O =>
          if ascii_eqb c "<" then
            match tag_rest s' with
            | Some n => " "%char :: sub_tags_from n s'
            | None => c :: sub_tags_from 0 s'
            end
          else c :: sub_tags_from 0 s'
      end
  end.

Definition sub_tags (s : str) : str := sub_tags_from 0 s.

Definition isword_opt (c : option ascii) : bool :=
  match c with Some c => isword c | None => false end.

(** [\b] between two neighbouring positions; [None] is a string end. *)
Definition word_boundary (before after : option ascii) : bool :=
  xorb (isword_opt before) (isword_opt after).

(** Length of the run of digits at the start of [s]. *)
Fixpoint digit_run (s : str) : nat :=
  match s with
  | c :: s' => if isdigit c then S (digit_run s') else 0
  | [] => 0
  end.

(** A greedy [\d+]: take [m] digits, longest first, and give one back each
    time the rest of the pattern [k] fails. *)
Fixpoint backtrack {A} (m : nat) (k : nat -> option A) : option A :=
  match m with
  | O => None
  | S m' => match k m with
            | Some r => Some r
            | None => backtrack m' k
            end
  end.

(** [\b] after the first [m] characters of [s], [m >= 1]. *)
Definition boundary_after (s : str) (m : nat) : bool :=
  word_boundary (nth_error s (m - 1)) (nth_error s m).

Definition strip_prefix (prefix s : str) : option str :=
  if startswith prefix s then Some (skipn (length prefix) s) else None.

(** [TEXT \d+\b]: length of the match at the start of [s]. *)
Definition match_TEXT (s : str) : option nat :=
  match strip_prefix (lit "TEXT ") s with
  | Some r =>
      backtrack (digit_run r)
        (fun m => if boundary_after r m then Some (5 + m) else None)
  | None => None
  end.

(** [TEXTS \d+-\d+\b]: length of the match at the start of [s]. *)
Definition match_TEXTS (s : str) : option nat :=
  match strip_prefix (lit "TEXTS ") s with
  | Some r =>
      backtrack (digit_run r)
        (fun m1 =>
           match skipn m1 r with
           | c :: r2 =>
               if ascii_eqb c "-" then
                 backtrack (digit_run r2)
                   (fun m2 => if boundary_after r2 m2
                              then Some (6 + m1 + 1 + m2) else None)
               else None
           | [] => None
           end)
  | None => None
  end.

(** [\b(TEXT \d+|TEXTS \d+-\d+)\b] tried at the start of [s], where [prev]
    is the character before it: the length of the match. *)
Definition marker_match (prev : option ascii) (s : str) : option nat :=
  if word_boundary prev (head s) then
    match match_TEXT s with
    | Some n => Some n
    | None => match_TEXTS s
    end
  else None.

(** The non-overlapping matches, leftmost first, as (start, length);
    [skip] counts the characters of the last match still to be passed. *)
Fixpoint finditer_from (prev : option ascii) (skip pos : nat) (s : str)
  : list (nat * nat) :=
  match s with
  | [] => []
  | c :: s' =>
      match skip with
      | S k => finditer_from (Some c) k (S pos) s'
      | O =>
          match marker_match prev s with
          | Some n => (pos, n) :: finditer_from (Some c) (n - 1) (S pos) s'
          | None => finditer_from (Some c) 0 (S pos) s'
          end
      end
  end.

Definition finditer (s : str) : list (nat * nat) := finditer_from None 0 0 s.

(** The character before index [j] of [s], where [prev] comes before [s]. *)
Definition prev_at (prev : option ascii) (s : str) (j : nat) : option ascii :=
  match j with
  | O => prev
  | S j' => nth_error s j'
  end.

(** The positions at which the text is split. *)
Definition split_points (s : str) : list nat := map fst (finditer s).

(** [re.split] with one capturing group: the text before each match, the
    match itself, and at the end the text after the last match. *)
Fixpoint split_at (s : str) (last : nat) (ms : list (nat * nat)) : list str :=
  match ms with
  | [] => [slice s last (length s)]
  | (i, n) :: ms' => slice s last i :: slice s i (i + n) :: split_at s (i + n) ms'
  end.

Definition split (s : str) : list str := split_at s 0 (finditer s).

End Re.

(** ** Verse segmentation (the body of [get_texts_from_chapter]) *)

Definition marker_prefixes : list str := [lit "TEXT "; lit "TEXTS "].

Definition segment (unformatted_texts : list str) : list str :=
  let formatted_texts := map Re.sub_tags unformatted_texts in
  let concatenated_text := join (lit " ") formatted_texts in
  let split_texts := Re.split concatenated_text in
  map strip
    (List.filter (fun piece => startswith_any marker_prefixes (strip piece))
       split_texts).

(** ** Exceptions *)

Inductive exn :=
| ValueError (msg : str)
| UnicodeDecodeError
| UnicodeEncodeError
| JSONDecodeError
| RecursionError
| FileNotFoundError
| PermissionError
| TypeError
| KeyError
| AttributeError
| IndexError
| LibraryError (name : str) (value_error : bool).
    (* an exception class of a third-party library, and whether it derives
       from [ValueError] *)

(** [isinstance(e, ValueError)]: [UnicodeDecodeError],
    [UnicodeEncodeError] and [json.JSONDecodeError] are subclasses of
    [ValueError]. *)
Definition isinstance_ValueError (e : exn) : bool :=
  match e with
  | ValueError _ | UnicodeDecodeError | UnicodeEncodeError
  | JSONDecodeError => true
  | LibraryError _ b => b
  | _ => false
  end.

Definition isinstance_FileNotFoundError (e : exn) : bool :=
  match e with FileNotFoundError => true | _ => false end.

Definition isinstance_JSONDecodeError (e : exn) : bool :=
  match e with JSONDecodeError => true | _ => false end.

(** Every exception of the model derives from [Exception]. *)
Definition isinstance_Exception (e : exn) : bool := true.

Inductive outcome (A : Type) :=
| Returns (a : A)
| Raises (e : exn).
Arguments Returns {A} a.
Arguments Raises {A} e.

(** ** JSON values, as [json.load] builds them *)

Unset Elimination Schemes.
Inductive json :=
| JNull
| JBool (b : bool)
| JNum (z : Z)
| JStr (s : str)
| JArr (items : list json)
| JObj (members : list (str * json)).
Set Elimination Schemes.

(** [a == b] on two [str]. *)
Fixpoint str_eqb (a b : str) : bool :=
  match a, b with
  | [], [] => true
  | x :: a', y :: b' => ascii_eqb x y && str_eqb a' b'
  | _, _ => false
  end.

(** [d[key]] on a [dict], kept as its items in insertion order. *)
Fixpoint dict_get (key : str) (members : list (str * json)) : option json :=
  match members with
  | [] => None
  | (k, v) :: rest => if str_eqb k key then Some v else dict_get key rest
  end.

(** [for item in data]: the items a Python value iterates over. *)
Definition iterate (data : json) : outcome (list json) :=
  match data with
  | JArr items => Returns items
  | JObj members => Returns (map (fun kv => JStr (fst kv)) members)
  | JStr s => Returns (map (fun c => JStr [c]) s)
  | JNull | JBool _ | JNum _ => Raises TypeError
  end.

(** [item['name']] *)
Definition getitem_name (item : json) : outcome json :=
  match item with
  | JObj members =>
      match dict_get (lit "name") members with
      | Some v => Returns v
      | None => Raises KeyError
      end
  | _ => Raises TypeError
  end.

(** A list comprehension [[f(x) for x in l]] whose body may raise. *)
Fixpoint comprehension {A B} (f : A -> outcome B) (l : list A) : outcome (list B) :=
  match l with
  | [] => Returns []
  | x :: l' =>
      match f x with
      | Raises e => Raises e
      | Returns y =>
          match comprehension f l' with
          | Raises e => Raises e
          | Returns ys => Returns (y :: ys)
          end
      end
  end.

(** [', '.join(names)]: every item has to be a [str]. *)
Definition as_str (v : json) : outcome str :=
  match v with JStr s => Returns s | _ => Raises TypeError end.

Definition join_values (sep : str) (values : list json) : outcome str :=
  match comprehension as_str values with
  | Returns parts => Returns (join sep parts)
  | Raises e => Raises e
  end.

(** ** The data class of [names_extractor.py] *)

Record AugmentedSastricName := {
  name : str;
  definition : str;
  context : str;
  references : list str;
  category : str;
  gender : str
}.

(** [name.model_dump()] *)
Definition model_dump (n : AugmentedSastricName) : json :=
  JObj [ (lit "name", JStr (name n));
         (lit "definition", JStr (definition n));
         (lit "context", JStr (context n));
         (lit "references", JArr (map JStr (references n)));
         (lit "category", JStr (category n));
         (lit "gender", JStr (gender n)) ].

(** ** The generative service *)

(** The exclusion paragraph of the first prompt: empty, or the instruction
    that lists the joined names. *)
Inductive exclusion :=
| NoExclusion
| DoNotInclude (joined_names : str).

(** The text of a part. The two prompts are fixed templates; a prompt is
    kept as its template and the values put into it. *)
Inductive text :=
| FirstPrompt (source_str source_ref : str) (exclusion_text : exclusion)
| SecondPrompt (source_ref : str)
| ModelText (t : str).

Record content := { role : str; parts : list text }.

(** The [contents] argument of [generate_content]; its [config] is the same
    in both calls (temperature 0, JSON, [list[AugmentedSastricName]]). *)
Inductive contents :=
| Single (t : text)
| Chat (turns : list content).

Record response := {
  candidates : option (list content);   (* the content of each candidate *)
  response_text : str;
  parsed : option (list AugmentedSastricName)
}.

(** ** Files and tables *)

(** What opening and [json.load]-ing a file gives. A file absent from the
    map does not exist. [JsonText v] is a text that [json.load] turns into
    [v]; the other states are the ways in which reading raises. *)
Inductive file :=
| Unreadable               (* [open] raises [PermissionError] *)
| Undecodable              (* the bytes are not UTF-8 *)
| Malformed                (* the text is not JSON, is cut short, or is empty *)
| IntegerTooLong (msg : str)
    (* JSON with an integer of more digits than the conversion limit:
       [json.load] raises a plain [ValueError] *)
| NestedTooDeep            (* JSON nested too deep: [RecursionError] *)
| JsonText (v : json).

(** A row of the [contents] table. *)
Record node := {
  title : str;
  record : Z;
  level : Z;
  parent : Z;
  next_sibling : Z
}.

(** A row of the chapter catalog: parent title, chapter title, first and
    last record. *)
Record chapter_set := {
  canto_title : str;
  chapter_title : str;
  first_text : Z;
  last_text : Z
}.

Definition lower (c : ascii) : ascii :=
  if between 65 90 (ord c) then ascii_of_nat (ord c + 32) else c.

(** SQLite's [LIKE]: [%] is any run of characters, [_] is any one
    character, and ASCII letters compare without case. *)
Fixpoint like (pattern : str) : str -> bool :=
  match pattern with
  | [] => fun s => match s with [] => true | _ :: _ => false end
  | p :: pattern' =>
      if ascii_eqb p "%" then
        fix star (s : str) : bool :=
          like pattern' s || match s with [] => false | _ :: s' => star s' end
      else if ascii_eqb p "_" then
        fun s => match s with [] => false | _ :: s' => like pattern' s' end
      else
        fun s => match s with
                 | [] => false
                 | c :: s' => ascii_eqb (lower p) (lower c) && like pattern' s'
                 end
  end.

Definition sb_title (t : str) : bool :=
  like (lit "SB _._:%") t || like (lit "SB _.__:%") t
  || like (lit "SB __._:%") t || like (lit "SB __.__:%") t.

(** The catalog query: the join of [contents] with itself on
    [child.parent = parent.record], kept in child order. *)
Definition select_chapters (table : list node) : list chapter_set :=
  flat_map (fun child =>
    flat_map (fun par =>
      if (parent child =? record par)%Z && (level child =? 6)%Z
         && sb_title (title child)
      then [ {| canto_title := title par; chapter_title := title child;
                first_text := record child;
                last_text := next_sibling child |} ]
      else []) table) table.

(** [SELECT plain FROM texts WHERE recid >= first AND recid <= last] *)
Definition select_texts (table : list (Z * str)) (first last : Z) : list str :=
  map snd
    (List.filter (fun row => (first <=? fst row)%Z && (fst row <=? last)%Z) table).

Definition chapters_json (chapters : list chapter_set) : json :=
  JArr (map (fun c => JArr [JStr (canto_title c); JStr (chapter_title c);
                            JNum (first_text c); JNum (last_text c)]) chapters).

(** ** The world and the monad of the program *)

Section Program.

(** The generative service is opaque: it has a state of its own, and
    answers a request with a response or an exception. *)
Variable SvcState : Type.
Variable generate_content : SvcState -> contents -> outcome response * SvcState.

Record World := {
  files : gmap str file;
  contents_table : list node;
  texts_table : list (Z * str);
  service : SvcState;
  calls : list contents;      (* the requests sent to the service so far *)
  dump_error : json -> option exn
    (* what [json.dump(data, f, indent=2, ensure_ascii=False)] into a UTF-8
       file raises for [data], if anything: [UnicodeEncodeError] when a
       string of the value holds a lone surrogate, [RecursionError] when
       the value is nested too deep. The 8-bit characters the model keeps
       of a string do not decide this, so the world carries it. *)
}.

Definition set_files (fs : gmap str file) (w : World) : World :=
  {| files := fs; contents_table := contents_table w;
     texts_table := texts_table w; service := service w; calls := calls w;
     dump_error := dump_error w |}.

(** The world after the service, now in state [s], answered [request]. *)
Definition answered (w : World) (s : SvcState) (request : contents) : World :=
  {| files := files w; contents_table := contents_table w;
     texts_table := texts_table w; service := s;
     calls := calls w ++ [request]; dump_error := dump_error w |}.

Definition M (A : Type) : Type := World -> outcome A * World.

Definition ret {A} (a : A) : M A := fun w => (Returns a, w).

Definition raise {A} (e : exn) : M A := fun w => (Raises e, w).

Definition bind {A B} (m : M A) (k : A -> M B) : M B :=
  fun w =>
    match m w with
    | (Returns a, w') => k a w'
    | (Raises e, w') => (Raises e, w')
    end.

Definition lift {A} (o : outcome A) : M A := fun w => (o, w).

(** [try: body  except ...:], where [handler e] is the first [except]
    clause that catches [e], if there is one. *)
Definition try_except {A} (body : M A) (handler : exn -> option (M A)) : M A :=
  fun w =>
    match body w with
    | (Returns a, w') => (Returns a, w')
    | (Raises e, w') =>
        match handler e with
        | Some h => h w'
        | None => (Raises e, w')
        end
    end.

Notation "'let*' x ':=' m 'in' k" := (bind m (fun x => k))
  (at level 10, x pattern, m at level 200, k at level 200).

(** [with open(path, 'r', encoding='utf-8') as f: json.load(f)] *)
Definition read_json (path : str) : M json :=
  fun w =>
    match files w !! path with
    | None => (Raises FileNotFoundError, w)
    | Some Unreadable => (Raises PermissionError, w)
    | Some Undecodable => (Raises UnicodeDecodeError, w)
    | Some Malformed => (Raises JSONDecodeError, w)
    | Some (IntegerTooLong msg) => (Raises (ValueError msg), w)
    | Some NestedTooDeep => (Raises RecursionError, w)
    | Some (JsonText v) => (Returns v, w)
    end.

(** [with open(path, 'w', encoding='utf-8') as f:
       json.dump(data, f, indent=2, ensure_ascii=False)].
    [open] empties the file first and [json.dump] writes piece by piece:
    when it raises on the way, the file is left cut short. *)
Definition write_json (path : str) (data : json) : M unit :=
  fun w =>
    match dump_error w data with
    | None => (Returns tt, set_files (<[path := JsonText data]> (files w)) w)
    | Some e => (Raises e, set_files (<[path := Malformed]> (files w)) w)
    end.

(** [with open(path, 'w') as f: json.dump(data, f, indent=4)] for the
    catalog: a list of rows of two strings and two integers, written with
    the default [ensure_ascii], that is in ASCII escapes. *)
Definition write_json_ascii (path : str) (data : json) : M unit :=
  fun w => (Returns tt, set_files (<[path := JsonText data]> (files w)) w).

(** [client.models.generate_content(contents=...)] *)
Definition generate (request : contents) : M response :=
  fun w =>
    let (r, s') := generate_content (service w) request in
    (r, answered w s' request).

(** *** [names_extractor.py] *)

Definition load_existing_names (json_file_path : str) : M (list json) :=
  try_except
    (let* data := read_json json_file_path in
     let* items := lift (iterate data) in
     let* existing_names := lift (comprehension getitem_name items) in
     ret existing_names)
    (fun e =>
       if isinstance_FileNotFoundError e then Some (ret [])
       else if isinstance_Exception e then Some (ret [])
       else None).

(** Truth value of the optional file argument: [None] and the empty
    string are false. *)
Definition truthy (exclude_names_file : option str) : option str :=
  match exclude_names_file with
  | Some [] => None
  | other => other
  end.

(** [response.candidates[0].content] *)
Definition first_candidate (r : response) : outcome content :=
  match candidates r with
  | None => Raises TypeError
  | Some [] => Raises IndexError
  | Some (c :: _) => Returns c
  end.

Definition user (t : text) : content := {| role := lit "user"; parts := [t] |}.

(** [existing_names = []; if exclude_names_file: existing_names = ...] *)
Definition names_to_exclude (exclude_names_file : option str) : M (list json) :=
  match truthy exclude_names_file with
  | Some f => load_existing_names f
  | None => ret []
  end.

(** [exclusion_text = ""; if existing_names: exclusion_text = f"..."] *)
Definition exclusion_text_of (existing_names : list json) : outcome exclusion :=
  match existing_names with
  | [] => Returns NoExclusion
  | _ :: _ =>
      match join_values (lit ", ") existing_names with
      | Returns joined => Returns (DoNotInclude joined)
      | Raises e => Raises e
      end
  end.

Definition extract_names (source_str source_ref : str)
    (exclude_names_file : option str) : M (option (list AugmentedSastricName)) :=
  let* existing_names := names_to_exclude exclude_names_file in
  let* exclusion_text := lift (exclusion_text_of existing_names) in
  let first_prompt := FirstPrompt source_str source_ref exclusion_text in
  let* first_response := generate (Single first_prompt) in
  let* model_content_for_history := lift (first_candidate first_response) in
  let second_prompt := SecondPrompt source_ref in
  let chat_contents :=
    [user first_prompt; model_content_for_history; user second_prompt] in
  let* second_response := generate (Chat chat_contents) in
  let found_names := parsed second_response in
  ret found_names.

(** [f'sb_canto{canto}_chapter{chapter}_names.json'] *)
Definition names_file (canto chapter : Z) : str :=
  lit "sb_canto" ++ str_of_Z canto ++ lit "_chapter" ++ str_of_Z chapter
  ++ lit "_names.json".

(** [existing_data.extend(names_data)]: only a list has [extend]. *)
Definition extend (existing_data : json) (names_data : list json) : outcome json :=
  match existing_data with
  | JArr items => Returns (JArr (items ++ names_data))
  | _ => Raises AttributeError
  end.

Definition extract_names_to_json (canto chapter : Z)
    (found_names : option (list AugmentedSastricName)) : M unit :=
  let* names_data :=
    lift (match found_names with
          | Some l => Returns (map model_dump l)
          | None => Raises TypeError       (* [None] is not iterable *)
          end) in
  let* existing_data :=
    try_except (read_json (names_file canto chapter))
      (fun e =>
         if isinstance_FileNotFoundError e then Some (ret (JArr []))
         else if isinstance_JSONDecodeError e then Some (ret (JArr []))
         else None) in
  let* existing_data := lift (extend existing_data names_data) in
  write_json (names_file canto chapter) existing_data.

(** *** [text_retriever.py] *)

Definition list_all_sb_chapters : M (list chapter_set) :=
  fun w =>
    let chapters := select_chapters (contents_table w) in
    match write_json_ascii (lit "sb_chapters.json") (chapters_json chapters) w with
    | (Returns _, w') => (Returns chapters, w')
    | (Raises e, w') => (Raises e, w')
    end.

(** [f"SB {canto}.{chapter}:"] *)
Definition canto_chapter (canto chapter : Z) : str :=
  lit "SB " ++ str_of_Z canto ++ lit "." ++ str_of_Z chapter ++ lit ":".

(** The [for chapter_set in chapters] loop: it returns inside its first
    iteration whose title contains the label. *)
Fixpoint texts_of_first_match (label : str) (chapters : list chapter_set)
  : M (option (list str)) :=
  match chapters with
  | [] => ret None
  | chapter_set :: rest =>
      if contains label (chapter_title chapter_set) then
        fun w =>
          let first_text_record := first_text chapter_set in
          let last_text_record := last_text chapter_set in
          let unformatted_texts :=
            select_texts (texts_table w) first_text_record last_text_record in
          (Returns (Some (segment unformatted_texts)), w)
      else texts_of_first_match label rest
  end.

Definition get_texts_from_chapter (canto chapter : Z) : M (list str) :=
  let label := canto_chapter canto chapter in
  let* chapters := list_all_sb_chapters in
  let* found := texts_of_first_match label chapters in
  match found with
  | Some split_texts => ret split_texts
  | None => raise (ValueError (label ++ lit " not found in SB."))
  end.

(** *** [pipeline.py] *)

(** [m.ceil(n / 20)] for a list length [n]. *)
Definition ceil_div (n d : nat) : nat := (n + (d - 1)) / d.

(** [texts[start_index:start_index + step]] of iteration [curr_iter]. *)
Definition batch (texts : list str) (curr_iter : nat) : list str :=
  let start_index := 20 * curr_iter in
  let step := Nat.min 20 (length texts - start_index) in
  slice texts start_index (start_index + step).

Definition source_ref_of (canto chapter : Z) : str :=
  lit "Srimad Bhagavatam, Canto " ++ str_of_Z canto ++ lit ", Chapter "
  ++ str_of_Z chapter.

(** The body of the [while] loop. *)
Definition process_batch (canto chapter : Z) (source_slice : list str) : M unit :=
  let source_ref := source_ref_of canto chapter in
  let exclude_names_file := names_file canto chapter in
  let source_str := join (lit " ") source_slice in
  let* found_names := extract_names source_str source_ref (Some exclude_names_file) in
  extract_names_to_json canto chapter found_names.

(** [while curr_iter < max_iter], with [remaining = max_iter - curr_iter]
    iterations to go. *)
Fixpoint while_batches (canto chapter : Z) (texts : list str)
    (remaining curr_iter : nat) : M unit :=
  match remaining with
  | O => ret tt
  | S remaining' =>
      let* _ := process_batch canto chapter (batch texts curr_iter) in
      while_batches canto chapter texts remaining' (S curr_iter)
  end.

Definition get_names_from_chapter (canto chapter : Z) : M unit :=
  let* texts := get_texts_from_chapter canto chapter in
  let max_iter := ceil_div (length texts) 20 in
  while_batches canto chapter texts (max_iter - 0) 0.

(** [while canto <= 12] of [get_names_from_sb]; the loop need not end, so
    it runs on fuel and [None] is a run that is out of fuel. *)
Fixpoint sb_loop (fuel : nat) (canto chapter : Z) (w : World)
  : option (outcome unit * World) :=
  match fuel with
  | O => None
  | S fuel' =>
      if (canto <=? 12)%Z then
        match get_names_from_chapter canto chapter w with
        | (Returns _, w') => sb_loop fuel' canto (chapter + 1)%Z w'
        | (Raises e, w') =>
            if isinstance_ValueError e
            then sb_loop fuel' (canto + 1)%Z 1%Z w'
            else Some (Raises e, w')
        end
      else Some (Returns tt, w)
  end.

Definition get_names_from_sb (fuel : nat) : World -> option (outcome unit * World) :=
  sb_loop fuel 1%Z 1%Z.

End Program.

Arguments World : clear implicits.
Arguments M : clear implicits.
Arguments files {SvcState} w.
Arguments contents_table {SvcState} w.
Arguments texts_table {SvcState} w.
Arguments service {SvcState} w.
Arguments calls {SvcState} w.
Arguments dump_error {SvcState} w.
Arguments set_files {SvcState} fs w.
Arguments answered {SvcState} w s request.
Arguments ret {SvcState A} a w.
Arguments raise {SvcState A} e w.
Arguments bind {SvcState A B} m k w.
Arguments lift {SvcState A} o w.
Arguments try_except {SvcState A} body handler w.
Arguments read_json {SvcState} path w.
Arguments write_json {SvcState} path data w.
Arguments write_json_ascii {SvcState} path data w.
Arguments generate {SvcState} generate_content request w.
Arguments load_existing_names {SvcState} json_file_path w.
Arguments names_to_exclude {SvcState} exclude_names_file w.
Arguments extract_names {SvcState} generate_content source_str source_ref
  exclude_names_file w.
Arguments extract_names_to_json {SvcState} canto chapter found_names w.
Arguments list_all_sb_chapters {SvcState} w.
Arguments texts_of_first_match {SvcState} label chapters w.
Arguments get_texts_from_chapter {SvcState} canto chapter w.
Arguments process_batch {SvcState} generate_content canto chapter source_slice w.
Arguments while_batches {SvcState} generate_content canto chapter texts
  remaining curr_iter w.
Arguments get_names_from_chapter {SvcState} generate_content canto chapter w.
Arguments sb_loop {SvcState} generate_content fuel canto chapter w.
Arguments get_names_from_sb {SvcState} generate_content fuel w.

(** ** Notions the properties are stated with *)

(** A non-empty run of decimal digits. *)
Definition digits (ds : str) : Prop := ds <> [] /\ forallb isdigit ds = true.

(** [TEXT <integer>] or [TEXTS <integer>-<integer>]. *)
Definition marker_token (m : str) : Prop :=
  (exists ds, digits ds /\ m = lit "TEXT " ++ ds) \/
  (exists d1 d2, digits d1 /\ digits d2 /\
                 m = lit "TEXTS " ++ d1 ++ lit "-" ++ d2).

(** A marker stands as a whole word at index [i] of [s]: no word character
    touches it on either side. *)
Definition whole_word_marker_at (s : str) (i : nat) : Prop :=
  exists pre m post,
    s = pre ++ m ++ post /\ length pre = i /\ marker_token m /\
    Re.isword_opt (last pre) = false /\ Re.isword_opt (head post) = false.

(** The slices the [while] loop of the pipeline goes through. *)
Definition batches (texts : list str) : list (list str) :=
  map (batch texts) (seq 0 (ceil_div (length texts) 20)).

(** The batch text of each first-round request in a log of requests. *)
Definition round1_source (request : contents) : option str :=
  match request with
  | Single (FirstPrompt source_str _ _) => Some source_str
  | _ => None
  end.

Definition round1_sources (log : list contents) : list str :=
  omap round1_source log.

(** The exclusion paragraph of each first-round request in a log. *)
Definition round1_exclusion (request : contents) : option exclusion :=
  match request with
  | Single (FirstPrompt _ _ exclusion_text) => Some exclusion_text
  | _ => None
  end.

Definition round1_exclusions (log : list contents) : list exclusion :=
  omap round1_exclusion log.

(** The exclusion paragraph for a list of names. *)
Definition exclusion_of (names : list str) : exclusion :=
  match names with
  | [] => NoExclusion
  | _ :: _ => DoNotInclude (join (lit ", ") names)
  end.

(** A store file holds a sequence of records when it is a JSON array of
    objects that each have a ["name"]. *)
Definition record_array (v : json) : bool :=
  match v with
  | JArr items =>
      forallb (fun item =>
                 match item with
                 | JObj members =>
                     match dict_get (lit "name") members with
                     | Some _ => true
                     | None => false
                     end
                 | _ => false
                 end) items
  | _ => false
  end.

(** The matches [ms] lie from left to right, starting at index [last] or
    later, without overlap, inside a text of [len] characters. *)
Fixpoint tiled (last len : nat) (ms : list (nat * nat)) : Prop :=
  match ms with
  | [] => last <= len
  | (i, n) :: ms' => last <= i /\ tiled (i + n) len ms'
  end.

(** What a store file holds, as the extraction and the append see it:
    the items [old] an append adds to, and the [names] read from it for
    the exclusion list. A missing file and a file that is not JSON count
    as empty; an array counts when each item has a string for a name. *)
Definition holds_records (f : option file) (old : list json) (names : list str)
  : Prop :=
  (f = None /\ old = [] /\ names = [])
  \/ (f = Some Malformed /\ old = [] /\ names = [])
  \/ (f = Some (JsonText (JArr old))
      /\ comprehension getitem_name old = Returns (map JStr names)).

(** A file that held a JSON array holds it still, with items added at its
    end only. *)
Definition grown (before after : option file) : Prop :=
  forall old,
    before = Some (JsonText (JArr old)) ->
    exists added, after = Some (JsonText (JArr (old ++ added))).

(** The same, or the file was cut short by a write that raised; [dump]
    tells for which values a write raises. *)
Definition grown_or_cut (dump : json -> option exn) (before after : option file)
  : Prop :=
  forall old,
    before = Some (JsonText (JArr old)) ->
    (exists added, after = Some (JsonText (JArr (old ++ added))))
    \/ (after = Some Malformed /\ exists v e, dump v = Some e).

(** Every file but the catalog file has grown, in that sense. *)
Definition stores_kept {SvcState} (w w' : World SvcState) : Prop :=
  forall path,
    path <> lit "sb_chapters.json" -> grown (files w !! path) (files w' !! path).

Definition stores_kept_or_cut {SvcState} (w w' : World SvcState) : Prop :=
  forall path,
    path <> lit "sb_chapters.json" ->
    grown_or_cut (dump_error w) (files w !! path) (files w' !! path).

(** ** Sample data *)

Module Sample.

Definition govinda : AugmentedSastricName :=
  {| name := lit "Govinda"; definition := lit "protector of the cows";
     context := lit "a name of Krishna"; references := [lit "SB 1.1.1"];
     category := lit "Names of Krishna"; gender := lit "Male" |}.

Definition hari : AugmentedSastricName :=
  {| name := lit "Hari"; definition := lit "who takes away distress";
     context := lit "a name of Krishna"; references := [lit "SB 1.1.2"];
     category := lit "Names of Krishna"; gender := lit "Male" |}.

Definition model_reply : content :=
  {| role := lit "model"; parts := [ModelText (lit "[...]")] |}.

Definition reply (records : list AugmentedSastricName) : response :=
  {| candidates := Some [model_reply];
     response_text := lit "[...]";
     parsed := Some records |}.

(** A stub service without state: it answers the first round with
    [govinda] and the continuation round with [hari]. *)
Definition stub (s : unit) (request : contents) : outcome response * unit :=
  match request with
  | Single _ => (Returns (reply [govinda]), s)
  | Chat _ => (Returns (reply [hari]), s)
  end.

Definition chapter_node (t : string) (rec next : Z) : node :=
  {| title := lit t; record := rec; level := 6; parent := 1; next_sibling := next |}.

Definition canto_node : node :=
  {| title := lit "Canto 1: Creation"; record := 1; level := 5; parent := 0;
     next_sibling := 900 |}.

(** Twenty-one verses, numbered from [k]. *)
Fixpoint verses (n : nat) (k : Z) : str :=
  match n with
  | O => []
  | S n' => lit "TEXT " ++ str_of_Z k ++ lit " <i>om</i> namo " ++ verses n' (k + 1)%Z
  end.

Definition world (fs : gmap str file) : World unit :=
  {| files := fs;
     contents_table :=
       [ canto_node;
         chapter_node "SB 1.1: Questions by the Sages" 100 199;
         chapter_node "SB 1.2: Divinity and Divine Service" 200 299;
         chapter_node "SB 1.2: a second node of the same label" 300 399 ];
     texts_table :=
       [ (100, lit "Chapter One <b>Questions</b> TEXT 1 <i>om</i> namo bhagavate");
         (150, lit "TEXTS 2-3 dharmah projjhita");
         (200, verses 21 1);
         (300, lit "TEXT 1 another body") ]%Z;
     service := tt;
     calls := [];
     dump_error := fun _ => None |}.

(** The same world, where [json.dump] raises [UnicodeEncodeError] for
    whatever it is given, as it does for records with a lone surrogate. *)
Definition surrogate_world (fs : gmap str file) : World unit :=
  {| files := fs;
     contents_table := contents_table (world fs);
     texts_table := texts_table (world fs);
     service := tt;
     calls := [];
     dump_error := fun _ => Some UnicodeEncodeError |}.

(** A stub whose answers have no candidate. *)
Definition stub_no_candidate (s : unit) (request : contents)
  : outcome response * unit :=
  (Returns {| candidates := None; response_text := lit ""; parsed := None |}, s).

(** A stub whose continuation answer could not be parsed. *)
Definition stub_unparsed (s : unit) (request : contents)
  : outcome response * unit :=
  match request with
  | Single _ => (Returns (reply [govinda]), s)
  | Chat _ =>
      (Returns {| candidates := Some [model_reply]; response_text := lit "oops";
                  parsed := None |}, s)
  end.

(** A world whose content tree has no row. *)
Definition empty_world : World unit :=
  {| files := ∅; contents_table := []; texts_table := []; service := tt;
     calls := []; dump_error := fun _ => None |}.

(** A store whose only record has a number for a name. *)
Definition numbered_store : file :=
  JsonText (JArr [JObj [(lit "name", JNum 7)]]).

(** The continuation answer of [stub_unparsed]. *)
Definition unparsed_reply : response :=
  {| candidates := Some [model_reply]; response_text := lit "oops";
     parsed := None |}.

(** The catalog rows of [world]. *)
Definition catalog_row (t : string) (rec next : Z) : chapter_set :=
  {| canto_title := lit "Canto 1: Creation"; chapter_title := lit t;
     first_text := rec; last_text := next |}.

(** The verse units of chapter 1.2 of [world]. *)
Definition units : list str := segment [verses 21 1].

End Sample.

(** * Properties *)

(** ** Strings and characters *)

Lemma ascii_eqb_eq a b : ascii_eqb a b = true <-> a = b.
Proof. apply Ascii.eqb_eq. Qed.

Lemma ascii_eqb_neq a b : ascii_eqb a b = false <-> a <> b.
Proof. apply Ascii.eqb_neq. Qed.

Lemma digit_isword c : isdigit c = true -> isword c = true.
Proof. unfold isdigit, isword. intros ->. reflexivity. Qed.

Lemma startswith_app p r : startswith p (p ++ r) = true.
Proof.
  induction p as [|a p IH]; simpl; [reflexivity|].
  rewrite IH. replace (ascii_eqb a a) with true; [reflexivity|].
  symmetry. apply ascii_eqb_eq. reflexivity.
Qed.

Lemma startswith_inv p : forall s,
  startswith p s = true -> s = p ++ skipn (length p) s.
Proof.
  induction p as [|a p IH]; intros s H; simpl in *; [reflexivity|].
  destruct s as [|c s]; [discriminate|].
  apply andb_true_iff in H as [Hc Hs].
  apply ascii_eqb_eq in Hc. subst c. simpl. f_equal. apply IH, Hs.
Qed.

Lemma strip_prefix_Some p s r : Re.strip_prefix p s = Some r <-> s = p ++ r.
Proof.
  unfold Re.strip_prefix. split.
  - destruct (startswith p s) eqn:E; [|discriminate].
    intros [= <-]. apply startswith_inv, E.
  - intros ->. rewrite startswith_app. f_equal.
    rewrite skipn_app, skipn_all, Nat.sub_diag. reflexivity.
Qed.

(** ** The marker pattern *)

Section Marker.
Import Re.

Lemma backtrack_None {A} (k : nat -> option A) n :
  (forall m, 0 < m <= n -> k m = None) -> backtrack n k = None.
Proof.
  induction n as [|n IH]; intros H; simpl; [reflexivity|].
  rewrite H by lia. apply IH. intros m Hm. apply H. lia.
Qed.

Lemma backtrack_top {A} (k : nat -> option A) n :
  (forall m, 0 < m < n -> k m = None) ->
  backtrack n k = match n with O => None | S _ => k n end.
Proof.
  intros H. destruct n as [|n]; simpl; [reflexivity|].
  destruct (k (S n)); [reflexivity|].
  apply backtrack_None. intros m Hm. apply H. lia.
Qed.

Lemma digit_run_le s : digit_run s <= length s.
Proof.
  induction s as [|c s IH]; simpl; [lia|]. destruct (isdigit c); simpl; lia.
Qed.

Lemma digit_run_nth s : forall m,
  m < digit_run s -> exists c, nth_error s m = Some c /\ isdigit c = true.
Proof.
  induction s as [|c s IH]; simpl; intros m H; [lia|].
  destruct (isdigit c) eqn:E; [|lia].
  destruct m as [|m]; simpl; [eauto|]. apply IH. lia.
Qed.

Lemma digit_run_stop s :
  match nth_error s (digit_run s) with
  | Some c => isdigit c = false
  | None => True
  end.
Proof.
  induction s as [|c s IH]; simpl; [exact I|].
  destruct (isdigit c) eqn:E; simpl; [exact IH|exact E].
Qed.

Lemma digit_run_app ds post :
  forallb isdigit ds = true ->
  match head post with Some c => isdigit c = false | None => True end ->
  digit_run (ds ++ post) = length ds.
Proof.
  intros Hds Hpost. induction ds as [|d ds IH]; simpl in *.
  - destruct post as [|c post]; simpl in *; [reflexivity|]. rewrite Hpost. reflexivity.
  - apply andb_true_iff in Hds as [-> Hds]. f_equal. apply IH, Hds.
Qed.

Lemma digit_run_split s :
  forallb isdigit (firstn (digit_run s) s) = true.
Proof.
  induction s as [|c s IH]; simpl; [reflexivity|].
  destruct (isdigit c) eqn:E; simpl; [|reflexivity]. rewrite E. exact IH.
Qed.

Lemma nonword_nondigit (c : option ascii) :
  isword_opt c = false ->
  match c with Some c => isdigit c = false | None => True end.
Proof.
  destruct c as [c|]; simpl; [|trivial]. intros H.
  destruct (isdigit c) eqn:E; [|reflexivity].
  apply digit_isword in E. congruence.
Qed.

(** After a greedy run of digits [\b] holds only at the end of the run,
    and there only when no word character follows. *)
Lemma boundary_inside r m :
  0 < m < digit_run r -> boundary_after r m = false.
Proof.
  intros Hm. unfold boundary_after, word_boundary.
  destruct (digit_run_nth r (m - 1)) as (a & -> & Ha); [lia|].
  destruct (digit_run_nth r m) as (b & -> & Hb); [lia|].
  simpl. rewrite (digit_isword _ Ha), (digit_isword _ Hb). reflexivity.
Qed.

Lemma boundary_at_end r :
  0 < digit_run r ->
  boundary_after r (digit_run r) = negb (isword_opt (nth_error r (digit_run r))).
Proof.
  intros H. unfold boundary_after, word_boundary.
  destruct (digit_run_nth r (digit_run r - 1)) as (a & -> & Ha); [lia|].
  simpl. rewrite (digit_isword _ Ha). reflexivity.
Qed.

(** [\d+\b] at the start of [r]: the whole run of digits, followed by no
    word character. *)
Lemma digits_then_boundary {A} (f : nat -> A) r :
  backtrack (digit_run r) (fun m => if boundary_after r m then Some (f m) else None)
  = if (0 <? digit_run r) && negb (isword_opt (nth_error r (digit_run r)))
    then Some (f (digit_run r)) else None.
Proof.
  rewrite backtrack_top.
  - destruct (digit_run r) as [|n] eqn:E; [reflexivity|].
    rewrite <- E, boundary_at_end by lia. rewrite E. reflexivity.
  - intros m Hm. rewrite boundary_inside by lia. reflexivity.
Qed.

End Marker.

Section MarkerMatch.
Import Re.

Lemma head_skipn {A} (l : list A) : forall n, head (skipn n l) = nth_error l n.
Proof.
  induction l as [|a l IH]; intros [|n]; simpl; try reflexivity. apply IH.
Qed.

Lemma nth_error_app_len {A} (ds post : list A) :
  nth_error (ds ++ post) (length ds) = head post.
Proof. rewrite <- head_skipn, skipn_app, skipn_all, Nat.sub_diag. reflexivity. Qed.

Lemma digits_firstn_run r :
  0 < digit_run r -> digits (firstn (digit_run r) r).
Proof.
  intros H. split; [|apply digit_run_split].
  intros E. apply (f_equal (@length ascii)) in E.
  rewrite length_firstn in E. pose proof (digit_run_le r). simpl in E. lia.
Qed.

Lemma digits_length ds : digits ds -> 0 < length ds.
Proof. intros [H _]. destruct ds; [congruence|simpl; lia]. Qed.

Lemma digits_run ds post :
  digits ds -> isword_opt (head post) = false ->
  digit_run (ds ++ post) = length ds.
Proof.
  intros [_ Hds] Hpost. apply digit_run_app; [exact Hds|].
  apply nonword_nondigit, Hpost.
Qed.

(** [\d+\b] at the start of [r], as a statement about the text. *)
Lemma digits_boundary_spec r n :
  ((0 <? digit_run r) && negb (isword_opt (nth_error r (digit_run r))) = true
   /\ n = digit_run r)
  <-> exists ds post, r = ds ++ post /\ digits ds /\ n = length ds
                      /\ isword_opt (head post) = false.
Proof.
  split.
  - intros [H ->]. apply andb_true_iff in H as [Hpos Hw].
    apply Nat.ltb_lt in Hpos. apply negb_true_iff in Hw.
    exists (firstn (digit_run r) r), (skipn (digit_run r) r).
    split; [symmetry; apply firstn_skipn|].
    split; [apply digits_firstn_run, Hpos|].
    split; [rewrite length_firstn; pose proof (digit_run_le r); lia|].
    rewrite head_skipn. exact Hw.
  - intros (ds & post & -> & Hds & -> & Hpost).
    rewrite (digits_run _ _ Hds Hpost), nth_error_app_len, Hpost.
    pose proof (digits_length _ Hds) as Hl.
    split; [|reflexivity]. apply andb_true_iff. split; [|reflexivity].
    apply Nat.ltb_lt, Hl.
Qed.

Lemma match_TEXT_spec s n :
  match_TEXT s = Some n <->
  exists ds post, s = lit "TEXT " ++ ds ++ post /\ digits ds
                  /\ n = 5 + length ds /\ isword_opt (head post) = false.
Proof.
  unfold match_TEXT. split.
  - destruct (strip_prefix (lit "TEXT ") s) as [r|] eqn:E; [|discriminate].
    apply strip_prefix_Some in E. subst s.
    rewrite digits_then_boundary.
    destruct (_ && _) eqn:C; [|discriminate]. intros [= <-].
    destruct (proj1 (digits_boundary_spec r (digit_run r)) (conj C eq_refl))
      as (ds & post & -> & Hds & Hn & Hpost).
    exists ds, post. rewrite Hn. auto.
  - intros (ds & post & -> & Hds & -> & Hpost).
    rewrite (proj2 (strip_prefix_Some _ _ (ds ++ post)) eq_refl).
    rewrite digits_then_boundary.
    destruct (proj2 (digits_boundary_spec (ds ++ post) (length ds))) as [C Hn].
    { exists ds, post. auto. }
    rewrite C, <- Hn. reflexivity.
Qed.

Lemma dash_not_digit : isdigit "-" = false.
Proof. reflexivity. Qed.

Lemma match_TEXTS_spec s n :
  match_TEXTS s = Some n <->
  exists d1 d2 post,
    s = lit "TEXTS " ++ d1 ++ lit "-" ++ d2 ++ post /\ digits d1 /\ digits d2
    /\ n = 6 + length d1 + 1 + length d2 /\ isword_opt (head post) = false.
Proof.
  unfold match_TEXTS. split.
  - destruct (strip_prefix (lit "TEXTS ") s) as [r|] eqn:E; [|discriminate].
    apply strip_prefix_Some in E. subst s.
    rewrite backtrack_top.
    2:{ intros m Hm.
        destruct (digit_run_nth r m) as (c & Hc & Hd); [lia|].
        rewrite <- head_skipn in Hc.
        destruct (skipn m r) as [|c' r2]; [reflexivity|].
        simpl in Hc. injection Hc as ->.
        destruct (ascii_eqb c "-") eqn:Ec; [|reflexivity].
        apply ascii_eqb_eq in Ec. subst c. discriminate. }
    destruct (digit_run r) as [|k] eqn:Hrun; [discriminate|].
    rewrite <- Hrun.
    destruct (skipn (digit_run r) r) as [|c r2] eqn:Hskip; [discriminate|].
    destruct (ascii_eqb c "-") eqn:Ec; [|discriminate].
    apply ascii_eqb_eq in Ec. subst c.
    rewrite digits_then_boundary.
    destruct (_ && _) eqn:C; [|discriminate]. intros [= <-].
    destruct (proj1 (digits_boundary_spec r2 (digit_run r2)) (conj C eq_refl))
      as (d2 & post & -> & Hd2 & Hn & Hpost).
    exists (firstn (digit_run r) r), d2, post.
    split.
    { rewrite <- (firstn_skipn (digit_run r) r) at 1. rewrite Hskip. reflexivity. }
    split; [apply digits_firstn_run; lia|].
    split; [exact Hd2|]. split; [|exact Hpost].
    rewrite length_firstn, Hn. pose proof (digit_run_le r). lia.
  - intros (d1 & d2 & post & -> & Hd1 & Hd2 & -> & Hpost).
    rewrite (proj2 (strip_prefix_Some _ _ (d1 ++ lit "-" ++ d2 ++ post)) eq_refl).
    assert (Hrun : digit_run (d1 ++ lit "-" ++ d2 ++ post) = length d1).
    { apply digit_run_app; [apply Hd1|]. simpl. reflexivity. }
    rewrite backtrack_top.
    2:{ intros m Hm.
        destruct (digit_run_nth (d1 ++ lit "-" ++ d2 ++ post) m) as (c & Hc & Hd); [lia|].
        rewrite <- head_skipn in Hc.
        destruct (skipn m _) as [|c' r2]; [reflexivity|].
        simpl in Hc. injection Hc as ->.
        destruct (ascii_eqb c "-") eqn:Ec; [|reflexivity].
        apply ascii_eqb_eq in Ec. subst c. discriminate. }
    rewrite Hrun. pose proof (digits_length _ Hd1) as Hl1.
    destruct (length d1) as [|k] eqn:Hk; [lia|]. rewrite <- Hk.
    rewrite skipn_app, skipn_all, Nat.sub_diag. simpl.
    rewrite digits_then_boundary.
    destruct (proj2 (digits_boundary_spec (d2 ++ post) (length d2))) as [C Hn].
    { exists d2, post. auto. }
    rewrite C, <- Hn. reflexivity.
Qed.

End MarkerMatch.

Section SplitPoints.
Import Re.

Lemma marker_token_T m : marker_token m -> exists m', m = "T"%char :: m'.
Proof.
  intros [(ds & _ & ->)|(d1 & d2 & _ & _ & ->)]; simpl; eauto.
Qed.

Lemma marker_match_spec prev s n :
  marker_match prev s = Some n <->
  isword_opt prev = false /\
  exists m post, s = m ++ post /\ marker_token m /\ length m = n
                 /\ isword_opt (head post) = false.
Proof.
  unfold marker_match. split.
  - destruct (word_boundary prev (head s)) eqn:B; [|discriminate].
    assert (Hprev : forall m post, s = m ++ post -> marker_token m ->
                                   isword_opt prev = false).
    { intros m post -> Hm. destruct (marker_token_T _ Hm) as [m' ->].
      simpl in B. unfold word_boundary in B. simpl in B.
      destruct (isword_opt prev); [discriminate|reflexivity]. }
    destruct (match_TEXT s) as [n1|] eqn:E1.
    + intros [= <-]. apply match_TEXT_spec in E1 as (ds & post & Hs & Hds & -> & Hpost).
      assert (Hm : marker_token (lit "TEXT " ++ ds)) by (left; eauto).
      assert (Hs' : s = (lit "TEXT " ++ ds) ++ post) by (rewrite Hs; reflexivity).
      split; [eapply Hprev; eauto|].
      exists (lit "TEXT " ++ ds), post. repeat split; auto.
    + intros E2. apply match_TEXTS_spec in E2
        as (d1 & d2 & post & Hs & Hd1 & Hd2 & -> & Hpost).
      assert (Hm : marker_token (lit "TEXTS " ++ d1 ++ lit "-" ++ d2))
        by (right; eauto).
      assert (Hs' : s = (lit "TEXTS " ++ d1 ++ lit "-" ++ d2) ++ post).
      { rewrite Hs. simpl. rewrite <- app_assoc. reflexivity. }
      split; [eapply Hprev; eauto|].
      exists (lit "TEXTS " ++ d1 ++ lit "-" ++ d2), post.
      repeat split; auto. simpl. rewrite length_app. simpl. lia.
  - intros (Hprev & m & post & -> & Hm & <- & Hpost).
    destruct (marker_token_T _ Hm) as [m' Em].
    replace (word_boundary prev (head (m ++ post))) with true.
    2:{ rewrite Em. unfold word_boundary. simpl. rewrite Hprev. reflexivity. }
    destruct Hm as [(ds & Hds & ->)|(d1 & d2 & Hd1 & Hd2 & ->)].
    + replace (match_TEXT ((lit "TEXT " ++ ds) ++ post))
        with (Some (5 + length ds)).
      * rewrite length_app. reflexivity.
      * symmetry. apply match_TEXT_spec. exists ds, post. auto.
    + replace (match_TEXT ((lit "TEXTS " ++ d1 ++ lit "-" ++ d2) ++ post))
        with (@None nat) by reflexivity.
      apply match_TEXTS_spec. exists d1, d2, post.
      split; [simpl; rewrite <- app_assoc; reflexivity|].
      split; [exact Hd1|]. split; [exact Hd2|]. split; [|exact Hpost].
      simpl. rewrite !length_app. simpl. lia.
Qed.

Lemma digits_nth ds j c :
  forallb isdigit ds = true -> nth_error ds j = Some c -> isdigit c = true.
Proof.
  intros H Hn. apply nth_error_In in Hn.
  rewrite forallb_forall in H. apply H, Hn.
Qed.

(** Inside a marker a letter T is never at the start of a word. *)
Lemma marker_token_inner m j :
  marker_token m -> 0 < j < length m -> nth_error m j = Some "T"%char ->
  isword_opt (nth_error m (j - 1)) = true.
Proof.
  intros [(ds & [_ Hds] & ->)|(d1 & d2 & [_ Hd1] & [_ Hd2] & ->)] Hj Hn.
  - do 5 (destruct j as [|j]; [simpl in *; first [lia|discriminate|reflexivity]|]).
    simpl in Hn. apply (digits_nth _ _ _ Hds) in Hn. discriminate.
  - do 6 (destruct j as [|j]; [simpl in *; first [lia|discriminate|reflexivity]|]).
    simpl in Hn. apply nth_error_In in Hn.
    apply in_app_or in Hn as [Hn|[Hn|Hn]].
    + rewrite forallb_forall in Hd1. apply Hd1 in Hn. discriminate.
    + discriminate.
    + rewrite forallb_forall in Hd2. apply Hd2 in Hn. discriminate.
Qed.

(** No match starts inside another match. *)
Lemma marker_match_inner prev s n j :
  marker_match prev s = Some n -> 0 < j < n ->
  marker_match (nth_error s (j - 1)) (skipn j s) = None.
Proof.
  intros H Hj.
  apply marker_match_spec in H as (_ & m & post & -> & Hm & <- & _).
  destruct (marker_match _ _) as [n'|] eqn:E; [|reflexivity]. exfalso.
  apply marker_match_spec in E as (Hprev & m2 & post2 & Hs & Hm2 & _).
  destruct (marker_token_T _ Hm2) as [m2' ->].
  assert (HT : nth_error (m ++ post) j = Some "T"%char).
  { rewrite <- head_skipn, Hs. reflexivity. }
  rewrite nth_error_app1 in HT by lia.
  rewrite nth_error_app1 in Hprev by lia.
  rewrite (marker_token_inner m j Hm Hj HT) in Hprev. discriminate.
Qed.

Lemma prev_at_cons prev c s j :
  prev_at prev (c :: s) (S j) = prev_at (Some c) s j.
Proof. destruct j; reflexivity. Qed.

Lemma finditer_from_spec s : forall prev skip pos,
  (forall j, j < skip -> marker_match (prev_at prev s j) (skipn j s) = None) ->
  forall i,
    In i (map fst (finditer_from prev skip pos s)) <->
    exists j, i = pos + j /\ j < length s
              /\ marker_match (prev_at prev s j) (skipn j s) <> None.
Proof.
  induction s as [|c s IH]; intros prev skip pos Hskip i.
  - simpl. split; [tauto|]. intros (j & _ & Hj & _). simpl in Hj. lia.
  - assert (Hstep : forall skip',
      (forall j, j < skip' ->
         marker_match (prev_at (Some c) s j) (skipn j s) = None) ->
      (In i (map fst (finditer_from (Some c) skip' (S pos) s)) <->
       exists j, i = pos + S j /\ S j < length (c :: s)
                 /\ marker_match (prev_at prev (c :: s) (S j))
                      (skipn (S j) (c :: s)) <> None)).
    { intros skip' H'. rewrite (IH (Some c) skip' (S pos) H' i).
      split; intros (j & -> & Hl & Hm); exists j; simpl in *;
        (split; [lia|]); (split; [lia|]);
        rewrite ?prev_at_cons in *; destruct j; exact Hm. }
    assert (Hdown : forall k,
      (forall j, j < S k ->
         marker_match (prev_at prev (c :: s) j) (skipn j (c :: s)) = None) ->
      forall j, j < k -> marker_match (prev_at (Some c) s j) (skipn j s) = None).
    { intros k H j Hj. specialize (H (S j) ltac:(lia)).
      rewrite prev_at_cons in H. exact H. }
    simpl finditer_from. destruct skip as [|k].
    + destruct (marker_match prev (c :: s)) as [n|] eqn:E.
      * simpl map. simpl In. rewrite Hstep.
        2:{ intros j Hj.
            pose proof (marker_match_inner prev (c :: s) n (S j) E ltac:(lia)) as H.
            simpl in H. rewrite Nat.sub_0_r in H.
            destruct j; simpl; exact H. }
        split.
        -- intros [<-|(j & -> & Hl & Hm)].
           ++ exists 0. split; [lia|]. split; [simpl; lia|]. simpl. congruence.
           ++ exists (S j). auto.
        -- intros ([|j] & -> & Hl & Hm); [left; lia|right; exists j; auto].
      * rewrite Hstep by (intros j Hj; lia).
        split.
        -- intros (j & -> & Hl & Hm). exists (S j). auto.
        -- intros ([|j] & -> & Hl & Hm); [simpl in Hm; congruence|exists j; auto].
    + rewrite Hstep by (apply Hdown, Hskip).
      split.
      * intros (j & -> & Hl & Hm). exists (S j). auto.
      * intros ([|j] & -> & Hl & Hm).
        -- exfalso. apply Hm. apply (Hskip 0). lia.
        -- exists j. auto.
Qed.

Lemma last_firstn_prev (s : str) i :
  i <= length s -> last (firstn i s) = prev_at None s i.
Proof.
  destruct i as [|i]; intros Hi; [reflexivity|]. simpl prev_at.
  revert i Hi. induction s as [|c s IH]; intros i Hi; simpl in Hi; [lia|].
  destruct i as [|i]; simpl.
  - reflexivity.
  - specialize (IH i ltac:(lia)). simpl in IH.
    destruct s as [|d s]; [simpl in Hi; lia|]. simpl in *. exact IH.
Qed.

Lemma split_points_spec s i :
  In i (split_points s) <-> whole_word_marker_at s i.
Proof.
  unfold split_points, finditer.
  rewrite (finditer_from_spec s None 0 0) by (intros j Hj; lia).
  unfold whole_word_marker_at. split.
  - intros (j & -> & Hl & Hm). simpl.
    destruct (marker_match (prev_at None s j) (skipn j s)) as [n|] eqn:E;
      [|congruence].
    apply marker_match_spec in E as (Hprev & m & post & Hs & Htok & _ & Hpost).
    exists (firstn j s), m, post.
    split; [rewrite <- Hs; symmetry; apply firstn_skipn|].
    split; [rewrite length_firstn; lia|].
    split; [exact Htok|].
    split; [rewrite last_firstn_prev by lia; exact Hprev|exact Hpost].
  - intros (pre & m & post & -> & <- & Htok & Hpre & Hpost).
    exists (length pre). split; [reflexivity|].
    destruct (marker_token_T _ Htok) as [m' Em].
    split; [rewrite length_app, Em; simpl; lia|].
    assert (E : marker_match (prev_at None (pre ++ m ++ post) (length pre))
                  (skipn (length pre) (pre ++ m ++ post)) = Some (length m)).
    { apply marker_match_spec. split.
      - rewrite <- last_firstn_prev by (rewrite length_app; lia).
        rewrite firstn_app, firstn_all, Nat.sub_diag. simpl.
        rewrite app_nil_r. exact Hpre.
      - exists m, post. rewrite skipn_app, skipn_all, Nat.sub_diag. auto. }
    rewrite E. discriminate.
Qed.

End SplitPoints.

(** ** Verse segmentation *)

(** C6. In the split of the chapter text, an index is a split point exactly
    when a marker [TEXT <integer>] or [TEXTS <integer>-<integer>] stands
    there as a whole word: a TEXT or TEXTS inside a longer word, or not
    followed as a whole word by its number or range, never splits, and a
    whole-word marker always does. *)
Theorem C6_marker_detection :
  (forall s i, In i (Re.split_points s) <-> whole_word_marker_at s i)
  /\ Re.split_points (lit "TEXTUAL 12") = []
  /\ Re.split (lit "TEXTUAL 12") = [lit "TEXTUAL 12"]
  /\ Re.split_points (lit "CONTEXT 12 TEXT 12abc TEXTS 3 TEXT twelve") = []
  /\ Re.split_points (lit "TEXT 12") = [0]
  /\ Re.split_points (lit "TEXTS 3-5") = [0]
  /\ Re.split (lit "see TEXT 12, then TEXTS 3-5.")
     = [lit "see "; lit "TEXT 12"; lit ", then "; lit "TEXTS 3-5"; lit "."].
Proof.
  split; [exact split_points_spec|].
  repeat split; vm_compute; reflexivity.
Qed.

(** C1. On one text row [TEXT 1 <i>om</i> namo bhagavate] the segmenter
    returns the marker alone: the split gives the marker and its body as
    two pieces, and the filter on the TEXT prefix drops the body. *)
Theorem C1_marker_without_body :
  Re.split (lit "TEXT 1   om   namo bhagavate")
    = [lit ""; lit "TEXT 1"; lit "   om   namo bhagavate"]
  /\ segment [lit "TEXT 1 <i>om</i> namo bhagavate"] = [lit "TEXT 1"]
  /\ segment [lit "Chapter One TEXT 1 om namo"; lit "TEXTS 2-3 dharmah"]
     = [lit "TEXT 1"; lit "TEXTS 2-3"].
Proof. repeat split; vm_compute; reflexivity. Qed.

(** ** The store of names *)

Section Store.
Context {SvcState : Type}.
Implicit Types (w : World SvcState).

Lemma comprehension_app {A B} (f : A -> outcome B) a b xa xb :
  comprehension f a = Returns xa -> comprehension f b = Returns xb ->
  comprehension f (a ++ b) = Returns (xa ++ xb).
Proof.
  revert xa. induction a as [|x a IH]; simpl; intros xa Ha Hb.
  - injection Ha as <-. exact Hb.
  - destruct (f x) as [y|e]; [|discriminate].
    destruct (comprehension f a) as [ys|e]; [|discriminate].
    injection Ha as <-. rewrite (IH ys eq_refl Hb). reflexivity.
Qed.

Lemma comprehension_map {A B} (f : A -> outcome B) (g : A -> B) l :
  (forall x, f x = Returns (g x)) -> comprehension f l = Returns (map g l).
Proof.
  intros H. induction l as [|x l IH]; simpl; [reflexivity|].
  rewrite H, IH. reflexivity.
Qed.

Lemma getitem_name_model_dump n : getitem_name (model_dump n) = Returns (JStr (name n)).
Proof. reflexivity. Qed.

Lemma comprehension_as_str l : comprehension as_str (map JStr l) = Returns l.
Proof.
  induction l as [|x l IH]; simpl; [reflexivity|]. rewrite IH. reflexivity.
Qed.

(** A JSON array that is not a sequence of named records makes the
    comprehension raise. *)
Lemma comprehension_getitem_raises items :
  record_array (JArr items) = false ->
  exists e, comprehension getitem_name items = Raises e.
Proof.
  induction items as [|item items IH]; intros H; [discriminate|].
  cbn [record_array forallb] in H. apply andb_false_iff in H.
  cbn [comprehension].
  destruct item as [| | | | |members]; cbn [getitem_name]; eauto.
  revert H. destruct (dict_get (lit "name") members); [|eauto].
  intros [H|H]; [discriminate|].
  destruct (IH H) as [e ->]. eauto.
Qed.

Lemma load_existing_names_unfold path w :
  load_existing_names path w =
  match files w !! path with
  | Some (JsonText v) =>
      match iterate v with
      | Returns items =>
          match comprehension getitem_name items with
          | Returns names => (Returns names, w)
          | Raises _ => (Returns [], w)
          end
      | Raises _ => (Returns [], w)
      end
  | _ => (Returns [], w)
  end.
Proof.
  unfold load_existing_names, try_except, bind, read_json, lift, ret.
  destruct (files w !! path) as [[| | |msg| |v]|]; try reflexivity.
  destruct (iterate v) as [items|e];
    [|destruct (isinstance_FileNotFoundError e); reflexivity].
  destruct (comprehension getitem_name items) as [names|e]; [reflexivity|].
  destruct (isinstance_FileNotFoundError e); reflexivity.
Qed.

Lemma load_existing_names_returns path w :
  exists names, load_existing_names path w = (Returns names, w).
Proof.
  rewrite load_existing_names_unfold.
  destruct (files w !! path) as [[| | |msg| |v]|]; eauto.
  destruct (iterate v) as [items|e]; eauto.
  destruct (comprehension getitem_name items); eauto.
Qed.

(** C8. [load_existing_names] never raises: it returns a list in every
    state of the file, and the empty list when the file is missing,
    unreadable, not UTF-8, not JSON, or JSON that is not a sequence of
    named records. The world is left as it was. *)
Theorem C8_load_existing_names_never_raises path w :
  (exists names, load_existing_names path w = (Returns names, w))
  /\ (files w !! path = None -> load_existing_names path w = (Returns [], w))
  /\ (files w !! path = Some Unreadable ->
      load_existing_names path w = (Returns [], w))
  /\ (files w !! path = Some Undecodable ->
      load_existing_names path w = (Returns [], w))
  /\ (files w !! path = Some Malformed ->
      load_existing_names path w = (Returns [], w))
  /\ (forall v, files w !! path = Some (JsonText v) -> record_array v = false ->
      load_existing_names path w = (Returns [], w)).
Proof.
  split; [apply load_existing_names_returns|].
  rewrite load_existing_names_unfold.
  repeat split; try (intros ->; reflexivity).
  intros v -> Hv.
  destruct v as [| | |s|items|members]; try reflexivity.
  - destruct s; reflexivity.
  - simpl. destruct (comprehension_getitem_raises items Hv) as [e ->]. reflexivity.
  - destruct members as [|[k x] members]; reflexivity.
Qed.

Lemma extract_names_to_json_unfold canto chapter new w :
  extract_names_to_json canto chapter (Some new) w =
  let path := names_file canto chapter in
  let persist old :=
    match dump_error w (JArr (old ++ map model_dump new)) with
    | None =>
        (Returns tt,
         set_files (<[path := JsonText (JArr (old ++ map model_dump new))]>
                      (files w)) w)
    | Some e => (Raises e, set_files (<[path := Malformed]> (files w)) w)
    end in
  match files w !! path with
  | None => persist []
  | Some Malformed => persist []
  | Some (JsonText (JArr old)) => persist old
  | Some Unreadable => (Raises PermissionError, w)
  | Some Undecodable => (Raises UnicodeDecodeError, w)
  | Some (IntegerTooLong msg) => (Raises (ValueError msg), w)
  | Some NestedTooDeep => (Raises RecursionError, w)
  | Some (JsonText _) => (Raises AttributeError, w)
  end.
Proof.
  unfold extract_names_to_json, try_except, bind, read_json, lift, ret, write_json.
  simpl.
  destruct (files w !! names_file canto chapter) as [[| | |msg| |v]|]; try reflexivity.
  destruct v; reflexivity.
Qed.

(** What an append leaves alone: everything but the files, and of the
    files everything but the store file of the chapter. *)
Lemma extract_names_to_json_world canto chapter found w :
  let w' := snd (extract_names_to_json canto chapter found w) in
  calls w' = calls w /\ service w' = service w
  /\ contents_table w' = contents_table w /\ texts_table w' = texts_table w
  /\ dump_error w' = dump_error w
  /\ (files w' = files w
      \/ exists f, files w' = <[names_file canto chapter := f]> (files w)).
Proof.
  destruct found as [new|]; [|cbn; auto 10].
  rewrite extract_names_to_json_unfold. cbv zeta.
  destruct (files w !! names_file canto chapter) as [[| | |msg| |v]|];
    try (cbn; auto 10; fail);
    try (destruct (dump_error w _); cbn; eauto 10; fail).
  destruct v; try (cbn; auto 10; fail).
  destruct (dump_error w _); cbn; eauto 10.
Qed.

(** C9. A store file whose bytes are not UTF-8 is not replaced by the
    empty sequence: the append raises [UnicodeDecodeError], which neither
    [except] clause catches, and persists nothing, the new records
    included. [load_existing_names] reads the same file as the empty
    list. *)
Theorem C9_corrupt_store_raises canto chapter new w :
  files w !! names_file canto chapter = Some Undecodable ->
  extract_names_to_json canto chapter (Some new) w = (Raises UnicodeDecodeError, w)
  /\ load_existing_names (names_file canto chapter) w = (Returns [], w).
Proof.
  intros H. rewrite extract_names_to_json_unfold, load_existing_names_unfold.
  cbv zeta. rewrite H. split; reflexivity.
Qed.

End Store.

(** ** The two-round extraction protocol *)

Section Protocol.
Context {SvcState : Type}.
Variable generate_content : SvcState -> contents -> outcome response * SvcState.
Implicit Types (w : World SvcState).

Lemma names_to_exclude_returns file w :
  exists names, names_to_exclude file w = (Returns names, w).
Proof.
  unfold names_to_exclude. destruct (truthy file) as [f|].
  - apply load_existing_names_returns.
  - exists []. reflexivity.
Qed.

Lemma extract_names_rounds src ref file w names excl r1 s1 c r2 s2 :
  names_to_exclude file w = (Returns names, w) ->
  exclusion_text_of names = Returns excl ->
  generate_content (service w) (Single (FirstPrompt src ref excl)) = (Returns r1, s1) ->
  first_candidate r1 = Returns c ->
  generate_content s1
    (Chat [user (FirstPrompt src ref excl); c; user (SecondPrompt ref)])
    = (Returns r2, s2) ->
  extract_names generate_content src ref file w
  = (Returns (parsed r2),
     answered (answered w s1 (Single (FirstPrompt src ref excl))) s2
       (Chat [user (FirstPrompt src ref excl); c; user (SecondPrompt ref)])).
Proof.
  intros Hn Hx H1 H2 H3.
  unfold extract_names, bind, lift, ret, generate.
  rewrite Hn, Hx, H1, H2. simpl. rewrite H3. reflexivity.
Qed.

(** C4. When both rounds are answered with a response, the value
    [extract_names] returns is the parsed record sequence of the second
    response; the records of the first response are not part of it. *)
Theorem C4_round2_only src ref file w names excl r1 s1 c r2 s2 :
  names_to_exclude file w = (Returns names, w) ->
  exclusion_text_of names = Returns excl ->
  generate_content (service w) (Single (FirstPrompt src ref excl)) = (Returns r1, s1) ->
  first_candidate r1 = Returns c ->
  generate_content s1
    (Chat [user (FirstPrompt src ref excl); c; user (SecondPrompt ref)])
    = (Returns r2, s2) ->
  fst (extract_names generate_content src ref file w) = Returns (parsed r2).
Proof.
  intros Hn Hx H1 H2 H3.
  rewrite (extract_names_rounds _ _ _ _ _ _ _ _ _ _ _ Hn Hx H1 H2 H3).
  reflexivity.
Qed.

End Protocol.

(** ** Exclusions across the batches of a run *)

Section Exclusions.
Context {SvcState : Type}.
Variable generate_content : SvcState -> contents -> outcome response * SvcState.
Implicit Types (w : World SvcState).

Lemma comprehension_model_dump found :
  comprehension getitem_name (map model_dump found)
  = Returns (map JStr (map name found)).
Proof.
  induction found as [|n found IH]; [reflexivity|].
  cbn [map comprehension]. rewrite getitem_name_model_dump, IH. reflexivity.
Qed.

Lemma exclusion_text_of_strs names :
  exclusion_text_of (map JStr names) = Returns (exclusion_of names).
Proof.
  destruct names as [|x names]; [reflexivity|].
  unfold exclusion_text_of, join_values. cbn [map].
  change (JStr x :: map JStr names) with (map JStr (x :: names)).
  rewrite comprehension_as_str. reflexivity.
Qed.

(** The first request of an extraction carries the exclusion paragraph
    computed from the names read at that moment. *)
Lemma extract_names_first_call src ref file w names excl :
  names_to_exclude file w = (Returns names, w) ->
  exclusion_text_of names = Returns excl ->
  exists rest,
    calls (snd (extract_names generate_content src ref file w))
    = calls w ++ Single (FirstPrompt src ref excl) :: rest.
Proof.
  intros Hn Hx. unfold extract_names, bind, lift, ret, generate.
  rewrite Hn, Hx.
  destruct (generate_content (service w) _) as [[r1|e] s1]; cbn.
  2:{ exists []. reflexivity. }
  destruct (first_candidate r1) as [c|e]; cbn.
  2:{ exists []. reflexivity. }
  destruct (generate_content s1 _) as [[r2|e] s2]; cbn;
    rewrite <- app_assoc; eexists; reflexivity.
Qed.

Lemma truthy_names_file canto chapter :
  truthy (Some (names_file canto chapter)) = Some (names_file canto chapter).
Proof. reflexivity. Qed.

End Exclusions.

(** ** Locating a chapter *)

Section Locate.
Context {SvcState : Type}.
Implicit Types (w : World SvcState).

(** The world after [list_all_sb_chapters] wrote the catalog file. *)
Lemma list_all_sb_chapters_unfold w :
  list_all_sb_chapters w
  = (Returns (select_chapters (contents_table w)),
     set_files (<[lit "sb_chapters.json" :=
                   JsonText (chapters_json (select_chapters (contents_table w)))]>
                  (files w)) w).
Proof. reflexivity. Qed.

Lemma texts_of_first_match_find label chapters w :
  texts_of_first_match label chapters w
  = (Returns
       (option_map
          (fun c => segment (select_texts (texts_table w) (first_text c) (last_text c)))
          (List.find (fun c => contains label (chapter_title c)) chapters)),
     w).
Proof.
  induction chapters as [|c chapters IH]; simpl; [reflexivity|].
  destruct (contains label (chapter_title c)); [reflexivity|exact IH].
Qed.

Lemma get_texts_from_chapter_unfold canto chapter w :
  get_texts_from_chapter canto chapter w
  = let label := canto_chapter canto chapter in
    let catalog := select_chapters (contents_table w) in
    let w' := set_files (<[lit "sb_chapters.json" := JsonText (chapters_json catalog)]>
                           (files w)) w in
    match List.find (fun c => contains label (chapter_title c)) catalog with
    | Some c =>
        (Returns (segment (select_texts (texts_table w) (first_text c) (last_text c))),
         w')
    | None => (Raises (ValueError (label ++ lit " not found in SB.")), w')
    end.
Proof.
  unfold get_texts_from_chapter, bind. rewrite list_all_sb_chapters_unfold.
  rewrite texts_of_first_match_find. cbv zeta.
  destruct (List.find _ _); reflexivity.
Qed.

Lemma find_none_iff {A} (f : A -> bool) l :
  List.find f l = None <-> forall x, In x l -> f x = false.
Proof.
  split; [apply find_none|].
  induction l as [|a l IH]; simpl; intros H; [reflexivity|].
  rewrite (H a) by auto. apply IH. intros x Hx. apply H. auto.
Qed.

Lemma find_first {A} (f : A -> bool) pre e post :
  (forall x, In x pre -> f x = false) -> f e = true ->
  List.find f (pre ++ e :: post) = Some e.
Proof.
  intros Hpre He. induction pre as [|a pre IH]; simpl.
  - rewrite He. reflexivity.
  - rewrite (Hpre a) by (simpl; auto). apply IH. intros x Hx. apply Hpre. simpl. auto.
Qed.

(** Every title of the catalog is the title of a node of the tree. *)
Lemma select_chapters_title table c :
  In c (select_chapters table) ->
  exists n, In n table /\ chapter_title c = title n.
Proof.
  unfold select_chapters. intros H.
  apply in_flat_map in H as (child & Hchild & H).
  apply in_flat_map in H as (par & _ & H).
  destruct (_ && _); [|destruct H].
  destruct H as [<-|[]]. exists child. auto.
Qed.

Lemma startswith_prefix p q : forall s,
  startswith (p ++ q) s = true -> startswith p s = true.
Proof.
  induction p as [|a p IH]; intros s H; [destruct s; reflexivity|].
  destruct s as [|c s]; [discriminate|]. simpl in *.
  apply andb_true_iff in H as [-> H]. apply IH, H.
Qed.

Lemma contains_prefix p q s : contains (p ++ q) s = true -> contains p s = true.
Proof.
  induction s as [|c s IH]; simpl; intros H.
  - rewrite orb_false_r in *. apply (startswith_prefix p q), H.
  - apply orb_true_iff in H as [H|H]; apply orb_true_iff.
    + left. apply (startswith_prefix p q), H.
    + right. apply IH, H.
Qed.

(** C7. [get_texts_from_chapter] raises exactly when no row of the chapter
    catalog has a title containing [SB <canto>.<chapter>:], and what it
    raises is the [ValueError] of its last line; when some row matches it
    returns. A pair absent from the content tree fails, and so does every
    chapter of canto 13 in a tree without an [SB 13.] title. *)
Theorem C7_chapter_not_found canto chapter w :
  let label := canto_chapter canto chapter in
  let catalog := select_chapters (contents_table w) in
  let not_found := ValueError (label ++ lit " not found in SB.") in
  ((exists e w', get_texts_from_chapter canto chapter w = (Raises e, w')) <->
   (forall c, In c catalog -> contains label (chapter_title c) = false))
  /\ (forall e w', get_texts_from_chapter canto chapter w = (Raises e, w') ->
      e = not_found)
  /\ ((exists c, In c catalog /\ contains label (chapter_title c) = true) ->
      exists texts w', get_texts_from_chapter canto chapter w = (Returns texts, w'))
  /\ ((forall n, In n (contents_table w) -> contains label (title n) = false) ->
      exists w', get_texts_from_chapter canto chapter w = (Raises not_found, w'))
  /\ (canto = 13%Z ->
      (forall n, In n (contents_table w) -> contains (lit "SB 13.") (title n) = false) ->
      exists w', get_texts_from_chapter canto chapter w = (Raises not_found, w')).
Proof.
  intros label catalog not_found.
  rewrite get_texts_from_chapter_unfold. cbv zeta.
  fold label. fold catalog. fold not_found.
  assert (Htree : (forall n, In n (contents_table w) -> contains label (title n) = false) ->
                  List.find (fun c => contains label (chapter_title c)) catalog = None).
  { intros H. apply find_none_iff. intros c Hc.
    apply select_chapters_title in Hc as (n & Hn & ->). apply H, Hn. }
  split; [|split; [|split; [|split]]].
  - rewrite <- find_none_iff.
    destruct (List.find _ catalog) as [c|]; split.
    + intros (e & w' & [=]).
    + discriminate.
    + reflexivity.
    + intros _. eauto.
  - intros e w'. destruct (List.find _ catalog); intros [=]. congruence.
  - intros (c & Hc & Hm).
    destruct (List.find _ catalog) as [c'|] eqn:E; [eauto|].
    rewrite (proj1 (find_none_iff _ _) E c Hc) in Hm. discriminate.
  - intros H. rewrite (Htree H). eauto.
  - intros Hcanto H. rewrite Htree; [eauto|].
    intros n Hn. specialize (H n Hn).
    destruct (contains label (title n)) eqn:E; [|reflexivity].
    subst canto. unfold label, canto_chapter in E.
    change (lit "SB " ++ str_of_Z 13 ++ lit "." ++ str_of_Z chapter ++ lit ":")
      with (lit "SB 13." ++ (str_of_Z chapter ++ lit ":")) in E.
    apply contains_prefix in E. congruence.
Qed.

(** C10. When several catalog rows match the label, the rows before the
    first match are passed over, the first matching row gives the span of
    records, and the rows after it play no part: the call returns the
    segmented texts of that span whatever follows, and nothing is raised. *)
Theorem C10_first_match_wins canto chapter w pre e post :
  select_chapters (contents_table w) = pre ++ e :: post ->
  (forall c, In c pre -> contains (canto_chapter canto chapter) (chapter_title c) = false) ->
  contains (canto_chapter canto chapter) (chapter_title e) = true ->
  exists w',
    get_texts_from_chapter canto chapter w
    = (Returns (segment (select_texts (texts_table w) (first_text e) (last_text e))),
       w').
Proof.
  intros Hcat Hpre He. rewrite get_texts_from_chapter_unfold. cbv zeta.
  rewrite Hcat, (find_first _ pre e post Hpre He). eauto.
Qed.

End Locate.

(** ** Batches of a chapter *)

Section Batches.

Lemma ceil_div_20 n : n <= 20 * ceil_div n 20 < n + 20.
Proof.
  unfold ceil_div. change (20 - 1) with 19.
  pose proof (Nat.div_mod_eq (n + 19) 20) as E.
  pose proof (Nat.mod_upper_bound (n + 19) 20 ltac:(lia)) as B.
  lia.
Qed.

Lemma batch_eq texts i :
  batch texts i
  = firstn (Nat.min 20 (length texts - 20 * i)) (skipn (20 * i) texts).
Proof. unfold batch, slice. f_equal. lia. Qed.

Lemma firstn_min_length {A} n (l : list A) :
  firstn (Nat.min n (length l)) l = firstn n l.
Proof.
  destruct (Nat.le_ge_cases n (length l)) as [H|H].
  - rewrite Nat.min_l by exact H. reflexivity.
  - rewrite Nat.min_r by exact H. rewrite !firstn_all2 by lia. reflexivity.
Qed.

Lemma batch_firstn texts i : batch texts i = firstn 20 (skipn (20 * i) texts).
Proof.
  rewrite batch_eq, <- (firstn_min_length 20 (skipn (20 * i) texts)).
  rewrite length_skipn. reflexivity.
Qed.

Lemma length_batch texts i :
  length (batch texts i) = Nat.min 20 (length texts - 20 * i).
Proof. rewrite batch_eq, length_firstn, length_skipn. lia. Qed.

Lemma concat_batches texts k :
  concat (map (batch texts) (seq 0 k)) = firstn (20 * k) texts.
Proof.
  induction k as [|k IH]; [reflexivity|].
  rewrite seq_S, map_app, concat_app, IH. cbn [map concat Nat.add].
  rewrite app_nil_r, batch_firstn, take_take_drop. f_equal. lia.
Qed.

Lemma batches_length texts : length (batches texts) = ceil_div (length texts) 20.
Proof. unfold batches. rewrite length_map, length_seq. reflexivity. Qed.

Lemma batches_nth texts i :
  i < ceil_div (length texts) 20 ->
  nth_error (batches texts) i = Some (batch texts i).
Proof.
  intros H. unfold batches.
  rewrite nth_error_map, nth_error_seq.
  destruct (Nat.ltb_spec i (ceil_div (length texts) 20)); [reflexivity|lia].
Qed.

End Batches.

(** ** The pagination loop and the driver *)

Section Pipeline.
Context {SvcState : Type}.
Variable generate_content : SvcState -> contents -> outcome response * SvcState.
Implicit Types (w : World SvcState).

Lemma round1_sources_app l k :
  round1_sources (l ++ k) = round1_sources l ++ round1_sources k.
Proof. apply omap_app. Qed.

Lemma extract_names_sources src ref file w found w' :
  extract_names generate_content src ref file w = (Returns found, w') ->
  round1_sources (calls w') = round1_sources (calls w) ++ [src].
Proof.
  destruct (names_to_exclude_returns file w) as [names Hn].
  unfold extract_names, bind, lift, ret, generate. rewrite Hn.
  destruct (exclusion_text_of names) as [excl|e]; [|discriminate].
  destruct (generate_content (service w) _) as [[r1|e] s1]; cbn; [|discriminate].
  destruct (first_candidate r1) as [c|e]; cbn; [|discriminate].
  destruct (generate_content s1 _) as [[r2|e] s2]; cbn; [|discriminate].
  intros [= _ <-]. cbn [calls answered].
  rewrite !round1_sources_app. cbn. rewrite <- app_assoc. reflexivity.
Qed.

Lemma extract_names_to_json_calls canto chapter found w r w' :
  extract_names_to_json canto chapter found w = (r, w') -> calls w' = calls w.
Proof.
  intros H. pose proof (extract_names_to_json_world canto chapter found w) as Hw.
  rewrite H in Hw. apply Hw.
Qed.

Lemma while_batches_sources canto chapter texts remaining : forall curr w w',
  while_batches generate_content canto chapter texts remaining curr w
    = (Returns tt, w') ->
  round1_sources (calls w')
  = round1_sources (calls w)
    ++ map (fun i => join (lit " ") (batch texts i)) (seq curr remaining).
Proof.
  induction remaining as [|remaining IH]; intros curr w w'.
  - intros [= <-]. cbn. rewrite app_nil_r. reflexivity.
  - cbn [while_batches]. unfold bind at 1. unfold process_batch, bind at 1.
    destruct (extract_names _ _ _ _ w) as [[found|e] w1] eqn:E1; [|discriminate].
    destruct (extract_names_to_json canto chapter found w1) as [[[]|e] w2] eqn:E2;
      [|discriminate].
    intros H. rewrite (IH _ _ _ H).
    rewrite (extract_names_to_json_calls _ _ _ _ _ _ E2).
    rewrite (extract_names_sources _ _ _ _ _ _ E1).
    rewrite <- app_assoc. reflexivity.
Qed.

(** C5. A chapter of [N] verse units is processed in [ceil(N/20)] batches,
    in order: the first-round requests of a run that returns carry the
    batch texts of the slices one after the other; slice [i] starts at
    index [20*i] and has length [min 20 (N - 20*i)]; the last slice has
    [N mod 20] units, or 20 when that is 0; and the slices put end to end
    are the chapter, every index lying in the one slice [i = j / 20]. *)
Theorem C5_batch_coverage (texts : list str) :
  let N := length texts in
  let nb := ceil_div N 20 in
  (N <= 20 * nb < N + 20)
  /\ length (batches texts) = nb
  /\ (forall i, i < nb ->
        nth_error (batches texts) i
        = Some (firstn (Nat.min 20 (N - 20 * i)) (skipn (20 * i) texts))
        /\ length (batch texts i) = Nat.min 20 (N - 20 * i)
        /\ 20 * i < N)
  /\ (0 < N ->
        nth_error (batches texts) (nb - 1) = Some (batch texts (nb - 1))
        /\ length (batch texts (nb - 1))
           = if N mod 20 =? 0 then 20 else N mod 20)
  /\ concat (batches texts) = texts
  /\ (forall i j, i < nb ->
        (20 * i <= j < 20 * i + length (batch texts i)) <-> (j < N /\ i = j / 20))
  /\ (forall canto chapter w w1 w',
        get_texts_from_chapter canto chapter w = (Returns texts, w1) ->
        get_names_from_chapter generate_content canto chapter w = (Returns tt, w') ->
        round1_sources (calls w')
        = round1_sources (calls w) ++ map (join (lit " ")) (batches texts)).
Proof.
  intros N nb. subst N nb. pose proof (ceil_div_20 (length texts)) as Hnb.
  split; [exact Hnb|]. split; [apply batches_length|].
  split; [|split; [|split; [|split]]].
  - intros i Hi. rewrite batches_nth by exact Hi.
    rewrite <- batch_eq, length_batch. repeat split. lia.
  - intros HN. rewrite batches_nth by lia.
    split; [reflexivity|]. rewrite length_batch.
    pose proof (Nat.div_mod_eq (length texts) 20) as E.
    pose proof (Nat.mod_upper_bound (length texts) 20 ltac:(lia)) as B.
    destruct (Nat.eqb_spec (length texts mod 20) 0) as [E0|E0]; nia.
  - unfold batches. rewrite concat_batches. apply firstn_all2. lia.
  - intros i j Hi. rewrite length_batch.
    pose proof (Nat.div_mod_eq j 20) as E.
    pose proof (Nat.mod_upper_bound j 20 ltac:(lia)) as B.
    split; intros H; nia.
  - intros canto chapter w w1 w' Ht Hrun.
    unfold get_names_from_chapter, bind in Hrun. rewrite Ht in Hrun.
    rewrite Nat.sub_0_r in Hrun.
    apply while_batches_sources in Hrun. rewrite Hrun.
    rewrite get_texts_from_chapter_unfold in Ht. cbv zeta in Ht.
    assert (Hc : calls w1 = calls w).
    { destruct (List.find _ _); injection Ht as _ <-; reflexivity. }
    rewrite Hc. unfold batches. rewrite map_map. reflexivity.
Qed.

(** C3 (amended). The driver catches [ValueError] and with it every
    subclass: when a chapter run raises, a [ValueError] of any kind moves
    the driver to chapter 1 of the next canto, and any other error ends
    the whole run with that error. A run therefore never ends with a
    [ValueError]. *)
Theorem C3_driver_catches_ValueError :
  (forall fuel canto chapter w w' e,
      (canto <= 12)%Z ->
      get_names_from_chapter generate_content canto chapter w = (Raises e, w') ->
      sb_loop generate_content (S fuel) canto chapter w
      = if isinstance_ValueError e
        then sb_loop generate_content fuel (canto + 1)%Z 1%Z w'
        else Some (Raises e, w'))
  /\ (forall fuel canto chapter w w' r,
      (canto <= 12)%Z ->
      get_names_from_chapter generate_content canto chapter w = (Returns r, w') ->
      sb_loop generate_content (S fuel) canto chapter w
      = sb_loop generate_content fuel canto (chapter + 1)%Z w')
  /\ (forall fuel canto chapter w w' e,
      sb_loop generate_content fuel canto chapter w = Some (Raises e, w') ->
      isinstance_ValueError e = false).
Proof.
  split; [|split].
  - intros fuel canto chapter w w' e Hc Hrun. cbn [sb_loop].
    destruct (Z.leb_spec canto 12); [|lia]. rewrite Hrun. reflexivity.
  - intros fuel canto chapter w w' r Hc Hrun. cbn [sb_loop].
    destruct (Z.leb_spec canto 12); [|lia]. rewrite Hrun. reflexivity.
  - induction fuel as [|fuel IH]; intros canto chapter w w' e; [discriminate|].
    cbn [sb_loop]. destruct (canto <=? 12)%Z; [|discriminate].
    destruct (get_names_from_chapter _ _ _ w) as [[r|e1] w1].
    + apply IH.
    + destruct (isinstance_ValueError e1) eqn:E; [apply IH|].
      intros [= <- <-]. exact E.
Qed.

End Pipeline.

(** ** The properties on the sample data *)

Lemma C4_round2_only_witness :
  fst (extract_names Sample.stub (lit "TEXT 1") (lit "Srimad Bhagavatam")
         (Some (names_file 1 1)) (Sample.world ∅))
  = Returns (Some [Sample.hari]).
Proof.
  apply (C4_round2_only Sample.stub (lit "TEXT 1") (lit "Srimad Bhagavatam")
           (Some (names_file 1 1)) (Sample.world ∅) [] NoExclusion
           (Sample.reply [Sample.govinda]) tt Sample.model_reply
           (Sample.reply [Sample.hari]) tt); reflexivity.
Defined.

Lemma C8_load_existing_names_witness :
  load_existing_names (names_file 1 1) (Sample.world ∅)
    = (Returns [], Sample.world ∅)
  /\ load_existing_names (names_file 1 1)
       (Sample.world {[ names_file 1 1 := Malformed ]})
     = (Returns [], Sample.world {[ names_file 1 1 := Malformed ]})
  /\ load_existing_names (names_file 1 1)
       (Sample.world {[ names_file 1 1 := JsonText (JArr [JNum 7]) ]})
     = (Returns [], Sample.world {[ names_file 1 1 := JsonText (JArr [JNum 7]) ]}).
Proof.
  split; [|split].
  - apply (proj1 (proj2 (C8_load_existing_names_never_raises
                           (names_file 1 1) (Sample.world ∅)))).
    reflexivity.
  - apply (proj1 (proj2 (proj2 (proj2 (proj2
             (C8_load_existing_names_never_raises (names_file 1 1)
                (Sample.world {[ names_file 1 1 := Malformed ]}))))))).
    reflexivity.
  - apply (proj2 (proj2 (proj2 (proj2 (proj2
             (C8_load_existing_names_never_raises (names_file 1 1)
                (Sample.world {[ names_file 1 1 := JsonText (JArr [JNum 7]) ]})))))))
      with (v := JArr [JNum 7]); reflexivity.
Defined.

Lemma C9_corrupt_store_witness :
  let w := Sample.world {[ names_file 1 1 := Undecodable ]} in
  extract_names_to_json 1 1 (Some [Sample.govinda]) w
  = (Raises UnicodeDecodeError, w)
  /\ load_existing_names (names_file 1 1) w = (Returns [], w).
Proof.
  cbv zeta.
  apply (C9_corrupt_store_raises 1 1 [Sample.govinda]
           (Sample.world {[ names_file 1 1 := Undecodable ]})).
  vm_compute. reflexivity.
Defined.

(** A run over the 21 verse units of chapter 1.2 with no store at the
    start: the first batch is sent without exclusions, the second batch
    excludes the name the first batch appended. *)
Lemma C2_exclusions_counterexample :
  exists w',
    get_names_from_chapter Sample.stub 1 2 (Sample.world ∅) = (Returns tt, w')
    /\ round1_exclusions (calls w') = [NoExclusion; DoNotInclude (lit "Hari")].
Proof.
  exists (snd (get_names_from_chapter Sample.stub 1 2 (Sample.world ∅))).
  split; vm_compute; reflexivity.
Qed.

Lemma C3_driver_witness :
  let w := Sample.world {[ names_file 1 1 := Unreadable ]} in
  sb_loop Sample.stub 1 1 1 w
  = Some (Raises PermissionError, snd (get_names_from_chapter Sample.stub 1 1 w)).
Proof.
  cbv zeta.
  apply (proj1 (C3_driver_catches_ValueError Sample.stub) 0 1%Z 1%Z
           (Sample.world {[ names_file 1 1 := Unreadable ]})
           (snd (get_names_from_chapter Sample.stub 1 1
                   (Sample.world {[ names_file 1 1 := Unreadable ]})))
           PermissionError).
  - lia.
  - vm_compute. reflexivity.
Defined.

(** The store file of chapter 1.1 is not UTF-8. The chapter run raises
    [UnicodeDecodeError] when it appends, which is not the not-found
    signal; the driver takes it for one, moves on to canto 2 without ever
    running chapter 1.2, and the whole run returns. *)
Lemma C3_driver_counterexample :
  let w := Sample.world {[ names_file 1 1 := Undecodable ]} in
  exists w1 w2,
    get_names_from_chapter Sample.stub 1 1 w = (Raises UnicodeDecodeError, w1)
    /\ (forall msg, UnicodeDecodeError <> ValueError msg)
    /\ get_names_from_sb Sample.stub 20 w = Some (Returns tt, w2)
    /\ round1_sources (calls w2) = [lit "TEXT 1 TEXTS 2-3"].
Proof.
  cbv zeta.
  exists (snd (get_names_from_chapter Sample.stub 1 1
                 (Sample.world {[ names_file 1 1 := Undecodable ]}))).
  exists (match get_names_from_sb Sample.stub 20
                  (Sample.world {[ names_file 1 1 := Undecodable ]}) with
          | Some r => snd r
          | None => Sample.world ∅
          end).
  split; [vm_compute; reflexivity|].
  split; [discriminate|].
  split; vm_compute; reflexivity.
Qed.

Lemma C5_batch_coverage_witness :
  round1_sources
    (calls (snd (get_names_from_chapter Sample.stub 1 2 (Sample.world ∅))))
  = round1_sources (calls (Sample.world ∅))
    ++ map (join (lit " ")) (batches Sample.units).
Proof.
  apply (proj2 (proj2 (proj2 (proj2 (proj2 (proj2
           (C5_batch_coverage Sample.stub Sample.units)))))) 1%Z 2%Z
           (Sample.world ∅)
           (snd (get_texts_from_chapter 1 2 (Sample.world ∅)))
           (snd (get_names_from_chapter Sample.stub 1 2 (Sample.world ∅))));
    vm_compute; reflexivity.
Defined.

Lemma C7_chapter_not_found_witness :
  exists w',
    get_texts_from_chapter 13 1 (Sample.world ∅)
    = (Raises (ValueError (lit "SB 13.1: not found in SB.")), w').
Proof.
  apply (proj2 (proj2 (proj2 (proj2
           (C7_chapter_not_found 13 1 (Sample.world ∅))))) eq_refl).
  intros n [<-|[<-|[<-|[<-|[]]]]]; reflexivity.
Defined.

Lemma C10_first_match_witness :
  exists w',
    get_texts_from_chapter 1 2 (Sample.world ∅)
    = (Returns (segment (select_texts (texts_table (Sample.world ∅)) 200 299)), w').
Proof.
  apply (C10_first_match_wins 1 2 (Sample.world ∅)
           [Sample.catalog_row "SB 1.1: Questions by the Sages" 100 199]
           (Sample.catalog_row "SB 1.2: Divinity and Divine Service" 200 299)
           [Sample.catalog_row "SB 1.2: a second node of the same label" 300 399]).
  - reflexivity.
  - intros c [<-|[]]. reflexivity.
  - reflexivity.
Defined.

(** * Further properties of the code *)

(** ** Stripping *)

Section Strip.

Lemma lstrip_length s : length (lstrip s) <= length s.
Proof.
  induction s as [|c s IH]; simpl; [lia|]. destruct (isspace c); simpl; lia.
Qed.

Lemma lstrip_idem s : lstrip (lstrip s) = lstrip s.
Proof.
  induction s as [|c s IH]; simpl; [reflexivity|].
  destruct (isspace c) eqn:E; [exact IH|]. simpl. rewrite E. reflexivity.
Qed.

Lemma lstrip_suffix s : exists sp, s = sp ++ lstrip s.
Proof.
  induction s as [|c s [sp IH]]; simpl; [exists []; reflexivity|].
  destruct (isspace c).
  - exists (c :: sp). simpl. f_equal. exact IH.
  - exists []. reflexivity.
Qed.

Lemma lstrip_fixed_head c s : lstrip (c :: s) = c :: s -> isspace c = false.
Proof.
  simpl. destruct (isspace c); [|reflexivity]. intros H.
  pose proof (lstrip_length s) as L. rewrite H in L. simpl in L. lia.
Qed.

Lemma lstrip_head_fixed c s : isspace c = false -> lstrip (c :: s) = c :: s.
Proof. simpl. intros ->. reflexivity. Qed.

Lemma lstrip_prefix x y : lstrip (x ++ y) = x ++ y -> x <> [] -> lstrip x = x.
Proof.
  destruct x as [|c x]; [congruence|]. intros H _.
  apply lstrip_head_fixed. apply (lstrip_fixed_head c (x ++ y)), H.
Qed.

Lemma strip_lstrip s : lstrip (strip s) = strip s.
Proof.
  unfold strip, rstrip.
  destruct (lstrip_suffix (rev (lstrip s))) as [sp Hsp].
  set (b := lstrip (rev (lstrip s))) in *.
  destruct (rev b) as [|c r] eqn:E; [reflexivity|]. rewrite <- E.
  apply (lstrip_prefix (rev b) (rev sp)); [|rewrite E; discriminate].
  rewrite <- rev_app_distr, <- Hsp, rev_involutive. apply lstrip_idem.
Qed.

Lemma strip_idem s : strip (strip s) = strip s.
Proof.
  unfold strip at 1. rewrite strip_lstrip.
  unfold strip, rstrip. rewrite rev_involutive, lstrip_idem. reflexivity.
Qed.

Lemma startswith_any_nonempty u : startswith_any marker_prefixes u = true -> u <> [].
Proof. intros H ->. discriminate. Qed.

End Strip.

(** ** The pieces of the split *)

Section Pieces.
Import Re.

Lemma tiled_le last len ms : tiled last len ms -> last <= len.
Proof.
  revert last. induction ms as [|[i n] ms IH]; simpl; intros last H; [exact H|].
  destruct H as [H1 H2]. apply IH in H2. lia.
Qed.

Lemma tiled_weaken a b len ms : tiled a len ms -> b <= a -> tiled b len ms.
Proof. destruct ms as [|[i n] ms]; simpl; intros H Hb; [lia|]. split; [lia|tauto]. Qed.

Lemma marker_match_length prev s n :
  marker_match prev s = Some n -> 0 < n <= length s.
Proof.
  intros H. apply marker_match_spec in H as (_ & m & post & -> & Hm & <- & _).
  destruct (marker_token_T _ Hm) as [m' ->]. rewrite length_app. simpl. lia.
Qed.

Lemma finditer_from_tiled s : forall prev skip pos,
  skip <= length s ->
  tiled (pos + skip) (pos + length s) (finditer_from prev skip pos s).
Proof.
  induction s as [|c s IH]; intros prev skip pos Hskip; simpl in *; [lia|].
  destruct skip as [|k].
  - destruct (marker_match prev (c :: s)) as [n|] eqn:E.
    + apply marker_match_length in E. simpl in E. simpl. split; [lia|].
      specialize (IH (Some c) (n - 1) (S pos) ltac:(lia)).
      replace (pos + n) with (S pos + (n - 1)) by lia.
      replace (pos + S (length s)) with (S pos + length s) by lia. exact IH.
    + specialize (IH (Some c) 0 (S pos) ltac:(lia)).
      replace (pos + S (length s)) with (S pos + length s) by lia.
      eapply tiled_weaken; [exact IH|lia].
  - specialize (IH (Some c) k (S pos) ltac:(lia)).
    replace (pos + S k) with (S pos + k) by lia.
    replace (pos + S (length s)) with (S pos + length s) by lia. exact IH.
Qed.

Lemma concat_split_at (s : str) ms : forall last,
  tiled last (length s) ms -> concat (split_at s last ms) = skipn last s.
Proof.
  induction ms as [|[i n] ms IH]; intros last H; simpl in *.
  - rewrite app_nil_r. unfold slice. apply firstn_all2. rewrite length_skipn. lia.
  - destruct H as [Hi Ht]. pose proof (tiled_le _ _ _ Ht) as Hn.
    rewrite (IH _ Ht). unfold slice.
    replace (i + n - i) with n by lia.
    replace (skipn (i + n) s) with (skipn n (skipn i s))
      by (rewrite skipn_skipn; f_equal; lia).
    rewrite firstn_skipn.
    replace (skipn i s) with (skipn (i - last) (skipn last s))
      by (rewrite skipn_skipn; f_equal; lia).
    apply firstn_skipn.
Qed.

Lemma length_split_at (s : str) ms last :
  length (split_at s last ms) = 2 * length ms + 1.
Proof.
  revert last. induction ms as [|[i n] ms IH]; intros last; simpl; [reflexivity|].
  rewrite IH. lia.
Qed.

(** X2. The pieces [re.split] returns, put end to end, are the text that
    was split, and there are two pieces for each match and one more. *)
Theorem X2_split_pieces_rebuild_text (s : str) :
  concat (Re.split s) = s
  /\ length (Re.split s) = 2 * length (Re.split_points s) + 1.
Proof.
  unfold Re.split, split_points. split.
  - rewrite concat_split_at; [reflexivity|].
    apply (finditer_from_tiled s None 0 0). lia.
  - rewrite length_split_at, length_map. reflexivity.
Qed.

Lemma finditer_from_match s : forall prev skip pos i n,
  In (i, n) (finditer_from prev skip pos s) ->
  exists j, i = pos + j
            /\ marker_match (prev_at prev s j) (skipn j s) = Some n.
Proof.
  induction s as [|c s IH]; intros prev skip pos i n H; simpl in H; [destruct H|].
  assert (Hrec : forall k, In (i, n) (finditer_from (Some c) k (S pos) s) ->
            exists j, i = pos + j
              /\ marker_match (prev_at prev (c :: s) j) (skipn j (c :: s)) = Some n).
  { intros k Hk. apply IH in Hk as (j & -> & Hj).
    exists (S j). split; [lia|]. rewrite prev_at_cons. exact Hj. }
  destruct skip as [|k]; [|eauto].
  destruct (marker_match prev (c :: s)) as [n0|] eqn:E; [|eauto].
  destruct H as [[= <- <-]|H]; [|eauto].
  exists 0. split; [lia|exact E].
Qed.

Lemma in_split_at (s : str) ms i n : forall last,
  In (i, n) ms -> In (slice s i (i + n)) (split_at s last ms).
Proof.
  induction ms as [|[i0 n0] ms IH]; intros last H; [destruct H|].
  simpl. destruct H as [[= -> ->]|H]; [auto|]. right. right. apply IH, H.
Qed.

Lemma digit_not_space c : isdigit c = true -> isspace c = false.
Proof.
  unfold isdigit, isspace, between. intros H.
  apply andb_true_iff in H as [H1 H2].
  apply Nat.leb_le in H1. apply Nat.leb_le in H2.
  repeat (apply orb_false_iff; split);
    try (apply andb_false_iff; (left; apply Nat.leb_gt; lia)
         || (right; apply Nat.leb_gt; lia));
    apply Nat.eqb_neq; lia.
Qed.

Lemma digits_last ds : digits ds -> exists c r, rev ds = c :: r /\ isdigit c = true.
Proof.
  intros [Hne Hds].
  destruct (rev ds) as [|c r] eqn:E.
  - apply (f_equal (@rev ascii)) in E. rewrite rev_involutive in E. contradiction.
  - exists c, r. split; [reflexivity|].
    rewrite forallb_forall in Hds. apply Hds, in_rev. rewrite E. simpl. auto.
Qed.

(** A marker has no white space at either end and starts with one of the
    two prefixes. *)
Lemma marker_token_kept m :
  marker_token m -> strip m = m /\ startswith_any marker_prefixes m = true.
Proof.
  intros Hm.
  assert (Hlast : exists d r, rev m = d :: r /\ isdigit d = true).
  { destruct Hm as [(ds & Hds & ->)|(d1 & d2 & _ & Hd2 & ->)].
    - destruct (digits_last _ Hds) as (c & r & E & Hc).
      rewrite rev_app_distr, E. simpl. eauto.
    - destruct (digits_last _ Hd2) as (c & r & E & Hc).
      rewrite !rev_app_distr, E. simpl. eauto. }
  destruct Hlast as (d & r & Hrev & Hd).
  assert (Hstrip : strip m = m).
  { unfold strip, rstrip. destruct (marker_token_T _ Hm) as [m' Em].
    rewrite Em at 1. rewrite lstrip_head_fixed by reflexivity. rewrite <- Em.
    rewrite Hrev, lstrip_head_fixed by (apply digit_not_space, Hd).
    rewrite <- Hrev. apply rev_involutive. }
  split; [exact Hstrip|].
  destruct Hm as [(ds & _ & ->)|(d1 & d2 & _ & _ & ->)]; reflexivity.
Qed.

End Pieces.

(** ** What the segmenter returns *)

Section Units.
Import Re.

(** X1. Every unit [segment] returns starts with [TEXT ] or [TEXTS ], is
    not empty, and has no white space left at either end. *)
Theorem X1_units_start_with_prefix rows u :
  In u (segment rows) ->
  startswith_any marker_prefixes u = true /\ u <> [] /\ strip u = u.
Proof.
  unfold segment. intros H.
  apply in_map_iff in H as (piece & <- & H).
  apply filter_In in H as [_ H].
  split; [exact H|]. split; [apply startswith_any_nonempty, H|apply strip_idem].
Qed.

(** X3. Every match of the marker pattern in the joined text comes back
    as a unit of its own: the matched text is a marker and is a member of
    what [segment] returns. *)
Theorem X3_every_marker_is_a_unit rows i n :
  let text := join (lit " ") (map Re.sub_tags rows) in
  In (i, n) (Re.finditer text) ->
  marker_token (slice text i (i + n)) /\ In (slice text i (i + n)) (segment rows).
Proof.
  intros text H.
  assert (Hm : marker_token (slice text i (i + n))).
  { apply finditer_from_match in H as (j & -> & H). simpl.
    apply marker_match_spec in H as (_ & m & post & Hs & Hm & <- & _).
    unfold slice. replace (j + length m - j) with (length m) by lia.
    rewrite Hs, firstn_app, firstn_all, Nat.sub_diag. simpl.
    rewrite app_nil_r. exact Hm. }
  split; [exact Hm|].
  destruct (marker_token_kept _ Hm) as [Hstrip Hpre].
  unfold segment. fold text. apply in_map_iff.
  exists (slice text i (i + n)). split; [exact Hstrip|].
  apply filter_In. split; [|rewrite Hstrip; exact Hpre].
  unfold Re.split. apply in_split_at, H.
Qed.

End Units.

(** ** Removing markup *)

Section Markup.
Import Re.

Lemma sub_tags_from_length s : forall skip,
  length (sub_tags_from skip s) <= length s - skip.
Proof.
  induction s as [|c s IH]; intros skip; simpl; [lia|].
  destruct skip as [|k]; [|apply IH].
  destruct (ascii_eqb c "<").
  - destruct (tag_rest s) as [n|]; simpl.
    + specialize (IH n). lia.
    + specialize (IH 0). lia.
  - simpl. specialize (IH 0). lia.
Qed.

Lemma sub_tags_plain pre r :
  ~ In "<"%char pre -> sub_tags_from 0 (pre ++ r) = pre ++ sub_tags_from 0 r.
Proof.
  induction pre as [|c pre IH]; intros H; [reflexivity|].
  cbn [app sub_tags_from].
  destruct (ascii_eqb c "<") eqn:E.
  - apply ascii_eqb_eq in E. subst c. exfalso. apply H. simpl. auto.
  - f_equal. apply IH. intros Hin. apply H. simpl. auto.
Qed.

Lemma tag_rest_closed body post :
  ~ In ">"%char body -> ~ In "010"%char body ->
  tag_rest (body ++ ">"%char :: post) = Some (S (length body)).
Proof.
  induction body as [|c body IH]; intros H1 H2; [reflexivity|].
  cbn [app tag_rest length].
  destruct (ascii_eqb c ">") eqn:E1.
  { apply ascii_eqb_eq in E1. subst c. exfalso. apply H1. simpl. auto. }
  destruct (ascii_eqb c "010") eqn:E2.
  { apply ascii_eqb_eq in E2. subst c. exfalso. apply H2. simpl. auto. }
  rewrite IH; [reflexivity| |]; intros Hin; [apply H1|apply H2]; simpl; auto.
Qed.

Lemma sub_tags_from_skip l post :
  sub_tags_from (length l) (l ++ post) = sub_tags_from 0 post.
Proof.
  induction l as [|c l IH]; [reflexivity|]. simpl. exact IH.
Qed.

(** X4. [re.sub(r'<.*?>', ' ', s)] never makes the text longer, leaves a
    text without an opening bracket as it is, and replaces a tag (an
    opening bracket, a body without closing bracket or newline, a closing
    bracket) that follows bracket-free text by one space, going on with
    the text after the tag. *)
Theorem X4_markup_removal :
  (forall s, length (Re.sub_tags s) <= length s)
  /\ (forall s, ~ In "<"%char s -> Re.sub_tags s = s)
  /\ (forall pre body post,
        ~ In "<"%char pre -> ~ In ">"%char body -> ~ In "010"%char body ->
        Re.sub_tags (pre ++ "<"%char :: body ++ ">"%char :: post)
        = pre ++ " "%char :: Re.sub_tags post).
Proof.
  unfold sub_tags. split; [|split].
  - intros s. pose proof (sub_tags_from_length s 0). lia.
  - intros s H. rewrite <- (app_nil_r s) at 1.
    rewrite (sub_tags_plain s [] H). apply app_nil_r.
  - intros pre body post Hpre H1 H2.
    rewrite (sub_tags_plain pre _ Hpre). f_equal.
    cbn [sub_tags_from]. replace (ascii_eqb "<" "<") with true by reflexivity.
    rewrite (tag_rest_closed body post H1 H2). f_equal.
    change (body ++ ">"%char :: post) with (body ++ [">"%char] ++ post).
    rewrite app_assoc.
    replace (S (length body)) with (length (body ++ [">"%char]))
      by (rewrite length_app; simpl; lia).
    apply sub_tags_from_skip.
Qed.

End Markup.

(** ** What an extraction touches *)

Section Extraction.
Context {SvcState : Type}.
Variable generate_content : SvcState -> contents -> outcome response * SvcState.
Implicit Types (w : World SvcState).

Lemma extract_names_cases src ref file w :
  let r := extract_names generate_content src ref file w in
  files (snd r) = files w
  /\ contents_table (snd r) = contents_table w
  /\ texts_table (snd r) = texts_table w
  /\ exists requests,
       calls (snd r) = calls w ++ requests
       /\ length requests <= 2
       /\ (forall found, fst r = Returns found -> length requests = 2).
Proof.
  destruct (names_to_exclude_returns file w) as [names Hn].
  unfold extract_names, bind, lift, ret, generate. rewrite Hn.
  assert (Hdone : forall (r : outcome (option (list AugmentedSastricName)))
                         (w' : World SvcState) requests,
            files w' = files w -> contents_table w' = contents_table w ->
            texts_table w' = texts_table w ->
            calls w' = calls w ++ requests ->
            length requests <= 2 ->
            (forall found, r = Returns found -> length requests = 2) ->
            files w' = files w
            /\ contents_table w' = contents_table w
            /\ texts_table w' = texts_table w
            /\ exists requests,
                 calls w' = calls w ++ requests
                 /\ length requests <= 2
                 /\ (forall found, r = Returns found -> length requests = 2)).
  { intros r w' requests H1 H2 H3 H4 H5 H6. eauto 10. }
  destruct (exclusion_text_of names) as [excl|e]; cbn [fst snd].
  2:{ apply (Hdone _ _ []); try reflexivity;
        [symmetry; apply app_nil_r|simpl; lia|discriminate]. }
  destruct (generate_content (service w) _) as [[r1|e] s1]; cbn [fst snd].
  2:{ eapply (Hdone _ _ [_]); try reflexivity; [simpl; lia|discriminate]. }
  destruct (first_candidate r1) as [c|e]; cbn [fst snd].
  2:{ eapply (Hdone _ _ [_]); try reflexivity; [simpl; lia|discriminate]. }
  destruct (generate_content _ _) as [[r2|e] s2]; cbn [fst snd];
    eapply (Hdone _ _ [_; _]); try reflexivity;
    try (cbn; rewrite <- app_assoc; reflexivity); try (simpl; lia); discriminate.
Qed.

(** X6. An extraction changes neither the files nor the tables. It sends
    at most two requests to the service, and exactly two when it returns. *)
Theorem X6_extraction_frame src ref file w :
  let r := extract_names generate_content src ref file w in
  files (snd r) = files w
  /\ contents_table (snd r) = contents_table w
  /\ texts_table (snd r) = texts_table w
  /\ exists requests,
       calls (snd r) = calls w ++ requests
       /\ length requests <= 2
       /\ (forall found, fst r = Returns found -> length requests = 2).
Proof. apply extract_names_cases. Qed.

Lemma join_values_not_str sep values v :
  In v values -> (forall s, v <> JStr s) -> join_values sep values = Raises TypeError.
Proof.
  intros Hin Hv. unfold join_values.
  assert (H : comprehension as_str values = Raises TypeError).
  { induction values as [|x values IH]; [destruct Hin|].
    cbn [comprehension]. destruct Hin as [->|Hin].
    - destruct v; try reflexivity. destruct (Hv s eq_refl).
    - destruct (as_str x) as [y|e] eqn:E.
      + rewrite (IH Hin). reflexivity.
      + destruct x; try discriminate; injection E as <-; reflexivity. }
  rewrite H. reflexivity.
Qed.

(** X7. When one of the names read from the store is not a string, the
    extraction raises [TypeError] while it builds the exclusion paragraph:
    no request is sent to the service and the world is as before. *)
Theorem X7_non_string_name_stops_extraction src ref file w names v :
  names_to_exclude file w = (Returns names, w) ->
  In v names -> (forall s, v <> JStr s) ->
  extract_names generate_content src ref file w = (Raises TypeError, w).
Proof.
  intros Hn Hin Hv. unfold extract_names, bind, lift. rewrite Hn.
  assert (Hx : exclusion_text_of names = Raises TypeError).
  { unfold exclusion_text_of. destruct names as [|x names]; [destruct Hin|].
    rewrite (join_values_not_str _ _ v Hin Hv). reflexivity. }
  rewrite Hx. reflexivity.
Qed.

(** X14. When the first response has no candidate, the extraction raises
    ([TypeError] for a missing list, [IndexError] for an empty one) after
    that one request: the continuation request is never sent. *)
Theorem X14_no_candidate_no_second_round src ref file w names excl r1 s1 :
  names_to_exclude file w = (Returns names, w) ->
  exclusion_text_of names = Returns excl ->
  generate_content (service w) (Single (FirstPrompt src ref excl)) = (Returns r1, s1) ->
  (candidates r1 = None ->
   extract_names generate_content src ref file w
   = (Raises TypeError, answered w s1 (Single (FirstPrompt src ref excl))))
  /\ (candidates r1 = Some [] ->
      extract_names generate_content src ref file w
      = (Raises IndexError, answered w s1 (Single (FirstPrompt src ref excl)))).
Proof.
  intros Hn Hx H1.
  unfold extract_names, bind, lift, ret, generate, first_candidate.
  rewrite Hn, Hx, H1. split; intros ->; reflexivity.
Qed.

(** X8. When the continuation response could not be parsed, the batch
    raises [TypeError] before the store is opened: both requests were
    sent, and the files are the ones from before the batch. *)
Theorem X8_unparsed_response_writes_nothing canto chapter source_slice w
    names excl r1 s1 c r2 s2 :
  let src := join (lit " ") source_slice in
  let ref := source_ref_of canto chapter in
  let request1 := Single (FirstPrompt src ref excl) in
  let request2 := Chat [user (FirstPrompt src ref excl); c; user (SecondPrompt ref)] in
  names_to_exclude (Some (names_file canto chapter)) w = (Returns names, w) ->
  exclusion_text_of names = Returns excl ->
  generate_content (service w) request1 = (Returns r1, s1) ->
  first_candidate r1 = Returns c ->
  generate_content s1 request2 = (Returns r2, s2) ->
  parsed r2 = None ->
  process_batch generate_content canto chapter source_slice w
  = (Raises TypeError, answered (answered w s1 request1) s2 request2)
  /\ files (snd (process_batch generate_content canto chapter source_slice w))
     = files w.
Proof.
  intros src ref request1 request2 Hn Hx H1 H2 H3 Hp.
  assert (E : process_batch generate_content canto chapter source_slice w
              = (Raises TypeError, answered (answered w s1 request1) s2 request2)).
  { unfold process_batch, bind. fold src. fold ref.
    rewrite (extract_names_rounds generate_content src ref _ w _ _ _ _ _ _ _
               Hn Hx H1 H2 H3).
    rewrite Hp. reflexivity. }
  rewrite E. split; reflexivity.
Qed.

End Extraction.

(** ** The names of the store files *)

Section FileNames.

Lemma lit_inj a b : lit a = lit b -> a = b.
Proof.
  intros H. apply (f_equal string_of_list_ascii) in H.
  unfold lit in H. rewrite !string_of_list_ascii_of_string in H. exact H.
Qed.

Lemma str_of_Z_inj a b : str_of_Z a = str_of_Z b -> a = b.
Proof.
  intros H. apply lit_inj in H.
  assert (Hnn : forall z, Z.to_int z <> Decimal.Pos Decimal.Nil
                          /\ Z.to_int z <> Decimal.Neg Decimal.Nil).
  { intros [|p|p]; simpl; split; try discriminate;
      intros [= E]; apply (DecimalPos.Unsigned.to_uint_nonnil p E). }
  apply DecimalZ.to_int_inj.
  assert (E : Some (Z.to_int a) = Some (Z.to_int b)).
  { rewrite <- (NilZero.isi (Z.to_int a)) by apply Hnn.
    rewrite <- (NilZero.isi (Z.to_int b)) by apply Hnn.
    rewrite H. reflexivity. }
  injection E as E. exact E.
Qed.

Lemma uint_no_underscore d : ~ In "_"%char (lit (NilEmpty.string_of_uint d)).
Proof.
  induction d; simpl; intros H; try (destruct H as [H|H]; [discriminate|auto]).
  destruct H.
Qed.

Lemma str_of_Z_no_underscore z : ~ In "_"%char (str_of_Z z).
Proof.
  unfold str_of_Z.
  assert (Hu : forall d, ~ In "_"%char (lit (NilZero.string_of_uint d))).
  { intros d. destruct d; try apply uint_no_underscore.
    simpl. intros [H|[]]. discriminate. }
  destruct (Z.to_int z) as [d|d]; simpl.
  - apply Hu.
  - intros [H|H]; [discriminate|]. apply (Hu d H).
Qed.

Lemma app_underscore_inj (a a' r r' : str) :
  ~ In "_"%char a -> ~ In "_"%char a' ->
  a ++ "_"%char :: r = a' ++ "_"%char :: r' -> a = a' /\ r = r'.
Proof.
  revert a'. induction a as [|c a IH]; intros [|c' a'] Ha Ha' H; simpl in *.
  - injection H as <-. auto.
  - injection H as <- _. exfalso. apply Ha'. auto.
  - injection H as -> _. exfalso. apply Ha. auto.
  - injection H as <- H.
    destruct (IH a') as [-> ->]; auto.
Qed.

Lemma names_file_inj canto chapter canto' chapter' :
  names_file canto chapter = names_file canto' chapter' ->
  canto = canto' /\ chapter = chapter'.
Proof.
  unfold names_file. intros H.
  apply app_inv_head in H.
  change (lit "_chapter" ++ ?x) with ("_"%char :: lit "chapter" ++ x) in H.
  apply app_underscore_inj in H as [Hc H]; try apply str_of_Z_no_underscore.
  apply app_inv_head in H.
  change (lit "_names.json") with ("_"%char :: lit "names.json") in H.
  apply app_underscore_inj in H as [Hh _]; try apply str_of_Z_no_underscore.
  split; apply str_of_Z_inj; assumption.
Qed.

Lemma names_file_not_catalog canto chapter :
  names_file canto chapter <> lit "sb_chapters.json".
Proof. unfold names_file. simpl. discriminate. Qed.

(** X12. The store file of a chapter is named after that chapter alone:
    two different (canto, chapter) pairs never share a store file, and no
    store file is the catalog file [sb_chapters.json]. *)
Theorem X12_store_files_distinct :
  (forall canto chapter canto' chapter',
      names_file canto chapter = names_file canto' chapter' ->
      canto = canto' /\ chapter = chapter')
  /\ (forall canto chapter, names_file canto chapter <> lit "sb_chapters.json").
Proof. split; [apply names_file_inj|apply names_file_not_catalog]. Qed.

End FileNames.

(** ** What a chapter run and the driver do to the files *)

Section Runs.
Context {SvcState : Type}.
Variable generate_content : SvcState -> contents -> outcome response * SvcState.
Implicit Types (w : World SvcState).

Lemma grown_refl f : grown f f.
Proof. intros old ->. exists []. rewrite app_nil_r. reflexivity. Qed.

Lemma grown_trans a b c : grown a b -> grown b c -> grown a c.
Proof.
  intros Hab Hbc old Ha. destruct (Hab old Ha) as [x Hb].
  destruct (Hbc _ Hb) as [y Hc]. exists (x ++ y). rewrite app_assoc. exact Hc.
Qed.

Lemma stores_kept_refl w : stores_kept w w.
Proof. intros path _. apply grown_refl. Qed.

Lemma stores_kept_trans w1 w2 w3 :
  stores_kept w1 w2 -> stores_kept w2 w3 -> stores_kept w1 w3.
Proof. intros H12 H23 path Hp. eapply grown_trans; [apply H12|apply H23]; exact Hp. Qed.

Lemma stores_kept_same_files w w' : files w' = files w -> stores_kept w w'.
Proof. intros E path _. rewrite E. apply grown_refl. Qed.

Lemma stores_kept_weaken w w' : stores_kept w w' -> stores_kept_or_cut w w'.
Proof. intros H path Hp old Ho. left. apply (H path Hp old Ho). Qed.

Lemma stores_kept_then_cut w1 w2 w3 :
  stores_kept w1 w2 -> dump_error w2 = dump_error w1 ->
  stores_kept_or_cut w2 w3 -> stores_kept_or_cut w1 w3.
Proof.
  intros H12 Hd H23 path Hp old Ho.
  destruct (H12 path Hp old Ho) as [x Hx].
  destruct (H23 path Hp _ Hx) as [[y Hy]|[Hm Hv]].
  - left. exists (x ++ y). rewrite app_assoc. exact Hy.
  - right. split; [exact Hm|]. rewrite <- Hd. exact Hv.
Qed.

Lemma stores_never_cut w w' :
  (forall v, dump_error w v = None) -> stores_kept_or_cut w w' -> stores_kept w w'.
Proof.
  intros Hd H path Hp old Ho.
  destruct (H path Hp old Ho) as [Hg|[_ (v & e & Hv)]]; [exact Hg|].
  rewrite Hd in Hv. discriminate.
Qed.

(** The stores after an append: grown when it returns, grown or cut short
    when it raises. *)
Lemma extract_names_to_json_stores canto chapter found w :
  let r := extract_names_to_json canto chapter found w in
  ((exists u, fst r = Returns u) -> stores_kept w (snd r))
  /\ stores_kept_or_cut w (snd r).
Proof.
  assert (Hsame : forall (r : outcome unit) (w' : World SvcState),
            files w' = files w ->
            ((exists u, r = Returns u) -> stores_kept w w')
            /\ stores_kept_or_cut w w').
  { intros r w' E. split; [intros _|apply stores_kept_weaken];
      apply stores_kept_same_files, E. }
  destruct found as [new|]; [|apply Hsame; reflexivity].
  rewrite extract_names_to_json_unfold. cbv zeta.
  assert (Hwrite : forall old,
            grown (files w !! names_file canto chapter)
                  (Some (JsonText (JArr (old ++ map model_dump new)))) ->
            let r := match dump_error w (JArr (old ++ map model_dump new)) with
                     | None =>
                         (Returns tt,
                          set_files (<[names_file canto chapter :=
                                         JsonText (JArr (old ++ map model_dump new))]>
                                       (files w)) w)
                     | Some e =>
                         (Raises e,
                          set_files (<[names_file canto chapter := Malformed]>
                                       (files w)) w)
                     end in
            ((exists u, fst r = Returns u) -> stores_kept w (snd r))
            /\ stores_kept_or_cut w (snd r)).
  { intros old Hg.
    assert (Hk : stores_kept w
              (set_files (<[names_file canto chapter :=
                              JsonText (JArr (old ++ map model_dump new))]>
                            (files w)) w)).
    { intros path _. cbn [files set_files].
      destruct (decide (names_file canto chapter = path)) as [<-|Hne].
      - rewrite lookup_insert_eq. exact Hg.
      - rewrite lookup_insert_ne by exact Hne. apply grown_refl. }
    destruct (dump_error w (JArr (old ++ map model_dump new))) as [e|] eqn:E;
      cbn [fst snd].
    - split; [intros [u [=]]|].
      intros path _ old' Ho. cbn [files set_files].
      destruct (decide (names_file canto chapter = path)) as [<-|Hne].
      + right. rewrite lookup_insert_eq. split; [reflexivity|eauto].
      + left. rewrite lookup_insert_ne by exact Hne.
        exists []. rewrite app_nil_r. exact Ho.
    - split; [intros _; exact Hk|apply stores_kept_weaken, Hk]. }
  destruct (files w !! names_file canto chapter) as [[| | |msg| |v]|] eqn:E;
    try (apply Hsame; reflexivity);
    try (apply Hwrite; intros old [=]).
  destruct v; try (apply Hsame; reflexivity).
  apply Hwrite. intros old [= <-]. eauto.
Qed.

Lemma extract_names_to_json_elsewhere canto chapter found w path :
  path <> names_file canto chapter ->
  files (snd (extract_names_to_json canto chapter found w)) !! path
  = files w !! path.
Proof.
  intros Hne.
  destruct (extract_names_to_json_world canto chapter found w)
    as (_ & _ & _ & _ & _ & [E|(f & E)]); rewrite E; [reflexivity|].
  apply lookup_insert_ne. congruence.
Qed.

Lemma lookup_catalog_insert (fs : gmap str file) v path :
  path <> lit "sb_chapters.json" ->
  <[lit "sb_chapters.json" := v]> fs !! path = fs !! path.
Proof. intros H. apply lookup_insert_ne. congruence. Qed.

Lemma get_texts_from_chapter_world canto chapter w :
  snd (get_texts_from_chapter canto chapter w)
  = set_files (<[lit "sb_chapters.json" :=
                  JsonText (chapters_json (select_chapters (contents_table w)))]>
                 (files w)) w.
Proof.
  rewrite get_texts_from_chapter_unfold. cbv zeta.
  destruct (List.find _ _); reflexivity.
Qed.

Lemma extract_names_dump src ref file w :
  dump_error (snd (extract_names generate_content src ref file w)) = dump_error w.
Proof.
  destruct (names_to_exclude_returns file w) as [names Hn].
  unfold extract_names, bind, lift, ret, generate. rewrite Hn.
  destruct (exclusion_text_of names) as [excl|e]; cbn [fst snd]; [|reflexivity].
  destruct (generate_content (service w) _) as [[r1|e] s1]; cbn [fst snd];
    [|reflexivity].
  destruct (first_candidate r1) as [c|e]; cbn [fst snd]; [|reflexivity].
  destruct (generate_content _ _) as [[r2|e] s2]; reflexivity.
Qed.

Lemma process_batch_world canto chapter source_slice w :
  let r := process_batch generate_content canto chapter source_slice w in
  ((exists u, fst r = Returns u) -> stores_kept w (snd r))
  /\ stores_kept_or_cut w (snd r)
  /\ (forall path, path <> names_file canto chapter ->
                   files (snd r) !! path = files w !! path)
  /\ contents_table (snd r) = contents_table w
  /\ dump_error (snd r) = dump_error w.
Proof.
  unfold process_batch, bind.
  pose proof (extract_names_cases generate_content
                (join (lit " ") source_slice) (source_ref_of canto chapter)
                (Some (names_file canto chapter)) w) as (Hf & Hc & _).
  pose proof (extract_names_dump (join (lit " ") source_slice)
                (source_ref_of canto chapter)
                (Some (names_file canto chapter)) w) as Hd.
  destruct (extract_names _ _ _ _ w) as [[found|e] w1]; cbn [fst snd] in *.
  - destruct (extract_names_to_json_stores canto chapter found w1) as [Hr Hk].
    destruct (extract_names_to_json_world canto chapter found w1)
      as (_ & _ & Hc' & _ & Hd' & _).
    assert (H01 : stores_kept w w1) by (apply stores_kept_same_files, Hf).
    split; [|split; [|split; [|split]]].
    + intros Hu. eapply stores_kept_trans; [exact H01|]. apply Hr, Hu.
    + eapply stores_kept_then_cut; [exact H01|exact Hd|exact Hk].
    + intros path Hp. rewrite extract_names_to_json_elsewhere by exact Hp.
      rewrite Hf. reflexivity.
    + congruence.
    + congruence.
  - split; [intros [u [=]]|].
    split; [apply stores_kept_weaken, stores_kept_same_files, Hf|].
    split; [intros path _; rewrite Hf; reflexivity|]. split; assumption.
Qed.

Lemma while_batches_world canto chapter texts remaining : forall curr w,
  let r := while_batches generate_content canto chapter texts remaining curr w in
  ((exists u, fst r = Returns u) -> stores_kept w (snd r))
  /\ stores_kept_or_cut w (snd r)
  /\ (forall path, path <> names_file canto chapter ->
                   files (snd r) !! path = files w !! path)
  /\ contents_table (snd r) = contents_table w
  /\ dump_error (snd r) = dump_error w.
Proof.
  induction remaining as [|remaining IH]; intros curr w; cbn [while_batches].
  - split; [intros _; apply stores_kept_refl|].
    split; [apply stores_kept_weaken, stores_kept_refl|]. repeat split.
  - unfold bind.
    pose proof (process_batch_world canto chapter (batch texts curr) w)
      as (Hr & Hk & He & Hc & Hd).
    destruct (process_batch _ _ _ _ w) as [[[]|e] w1]; cbn [fst snd] in *.
    + destruct (IH (S curr) w1) as (Hr' & Hk' & He' & Hc' & Hd').
      assert (H01 : stores_kept w w1) by (apply Hr; eauto).
      split; [|split; [|split; [|split]]].
      * intros Hu. eapply stores_kept_trans; [exact H01|]. apply Hr', Hu.
      * eapply stores_kept_then_cut; [exact H01|exact Hd|exact Hk'].
      * intros path Hp. rewrite He' by exact Hp. apply He, Hp.
      * congruence.
      * congruence.
    + split; [intros [u [=]]|]. auto.
Qed.

Lemma get_names_from_chapter_world canto chapter w :
  let r := get_names_from_chapter generate_content canto chapter w in
  ((exists u, fst r = Returns u) -> stores_kept w (snd r))
  /\ stores_kept_or_cut w (snd r)
  /\ (forall path, path <> names_file canto chapter ->
                   path <> lit "sb_chapters.json" ->
                   files (snd r) !! path = files w !! path)
  /\ contents_table (snd r) = contents_table w
  /\ dump_error (snd r) = dump_error w.
Proof.
  unfold get_names_from_chapter, bind.
  pose proof (get_texts_from_chapter_world canto chapter w) as Hw.
  set (w0 := set_files (<[lit "sb_chapters.json" :=
                 JsonText (chapters_json (select_chapters (contents_table w)))]>
                 (files w)) w) in *.
  assert (H0 : stores_kept w w0).
  { intros path Hp. subst w0. cbn [files set_files].
    rewrite lookup_catalog_insert by exact Hp. apply grown_refl. }
  assert (E0 : forall path, path <> lit "sb_chapters.json" ->
                            files w0 !! path = files w !! path).
  { intros path Hp. subst w0. cbn [files set_files].
    apply lookup_catalog_insert, Hp. }
  destruct (get_texts_from_chapter canto chapter w) as [[texts|e] w1];
    cbn [snd] in Hw; subst w1.
  - destruct (while_batches_world canto chapter texts
                (ceil_div (length texts) 20 - 0) 0 w0) as (Hr & Hk & He & Hc & Hd).
    split; [|split; [|split; [|split]]].
    + intros Hu. eapply stores_kept_trans; [exact H0|]. apply Hr, Hu.
    + eapply stores_kept_then_cut; [exact H0|reflexivity|exact Hk].
    + intros path Hp Hq. rewrite He by exact Hp. apply E0, Hq.
    + exact Hc.
    + exact Hd.
  - cbn [fst snd]. split; [intros [u [=]]|].
    split; [apply stores_kept_weaken, H0|].
    split; [intros path _ Hq; apply E0, Hq|]. split; reflexivity.
Qed.

Lemma sb_loop_kept fuel : forall canto chapter w r w',
  (forall v, dump_error w v = None) ->
  sb_loop generate_content fuel canto chapter w = Some (r, w') ->
  stores_kept w w'.
Proof.
  induction fuel as [|fuel IH]; intros canto chapter w r w' Hd; [discriminate|].
  cbn [sb_loop]. destruct (canto <=? 12)%Z.
  2:{ intros [= _ <-]. apply stores_kept_refl. }
  destruct (get_names_from_chapter_world canto chapter w) as (_ & Hk & _ & _ & Hd').
  apply (stores_never_cut _ _ Hd) in Hk.
  destruct (get_names_from_chapter _ _ _ w) as [[u|e] w1]; cbn [snd] in *.
  - intros H. eapply stores_kept_trans; [exact Hk|].
    eapply IH; [|exact H]. intros v. rewrite Hd'. apply Hd.
  - destruct (isinstance_ValueError e).
    + intros H. eapply stores_kept_trans; [exact Hk|].
      eapply IH; [|exact H]. intros v. rewrite Hd'. apply Hd.
    + intros [= _ <-]. exact Hk.
Qed.

(** X5. Stored records are lost only where a write raises. A file that
    holds a JSON array before a chapter run holds the same items
    afterwards with new items at the end only, or is left cut short, which
    needs a value for which the write raises; it is never cut short when
    the run returns. When the write raises for no value, every such file
    keeps its items over a whole run of the driver. The catalog file alone
    is rewritten. *)
Theorem X5_stored_records_are_kept :
  (forall canto chapter w,
      let r := get_names_from_chapter generate_content canto chapter w in
      stores_kept_or_cut w (snd r)
      /\ ((exists u, fst r = Returns u) -> stores_kept w (snd r)))
  /\ (forall fuel w r w',
        (forall v, dump_error w v = None) ->
        get_names_from_sb generate_content fuel w = Some (r, w') ->
        stores_kept w w').
Proof.
  split.
  - intros canto chapter w.
    destruct (get_names_from_chapter_world canto chapter w) as (Hr & Hk & _).
    split; assumption.
  - intros fuel w r w'. apply sb_loop_kept.
Qed.

(** X13. A chapter run changes no store file but its own: the store file
    of every other (canto, chapter) pair is after the run what it was
    before, whether the run returns or raises. *)
Theorem X13_other_stores_untouched canto chapter canto' chapter' w :
  (canto', chapter') <> (canto, chapter) ->
  files (snd (get_names_from_chapter generate_content canto chapter w))
    !! names_file canto' chapter'
  = files w !! names_file canto' chapter'.
Proof.
  intros Hne.
  apply get_names_from_chapter_world; [|apply names_file_not_catalog].
  intros E. apply names_file_inj in E as [-> ->]. apply Hne. reflexivity.
Qed.

End Runs.

(** ** Requests of a chapter run, and runs that find nothing *)

Section Requests.
Context {SvcState : Type}.
Variable generate_content : SvcState -> contents -> outcome response * SvcState.
Implicit Types (w : World SvcState).

Lemma process_batch_calls canto chapter source_slice w w' :
  process_batch generate_content canto chapter source_slice w = (Returns tt, w') ->
  length (calls w') = length (calls w) + 2.
Proof.
  unfold process_batch, bind.
  pose proof (extract_names_cases generate_content
                (join (lit " ") source_slice) (source_ref_of canto chapter)
                (Some (names_file canto chapter)) w)
    as (_ & _ & _ & requests & Hc & _ & H2).
  destruct (extract_names _ _ _ _ w) as [[found|e] w1]; [|discriminate].
  cbn [fst snd] in *. intros H.
  rewrite (extract_names_to_json_calls _ _ _ _ _ _ H), Hc, length_app.
  rewrite (H2 found eq_refl). reflexivity.
Qed.

Lemma while_batches_calls canto chapter texts remaining : forall curr w w',
  while_batches generate_content canto chapter texts remaining curr w
    = (Returns tt, w') ->
  length (calls w') = length (calls w) + 2 * remaining.
Proof.
  induction remaining as [|remaining IH]; intros curr w w'; cbn [while_batches].
  - intros [= <-]. lia.
  - unfold bind at 1.
    destruct (process_batch _ _ _ _ w) as [[[]|e] w1] eqn:E; [|discriminate].
    intros H. rewrite (IH _ _ _ H), (process_batch_calls _ _ _ _ _ E). lia.
Qed.

(** X9. A chapter run that returns sent two requests for each batch,
    [2 * ceil(N/20)] in all for [N] verse units. A chapter without units
    is run without any batch: nothing is sent and nothing is written
    after the catalog file. *)
Theorem X9_requests_of_a_run canto chapter w texts w1 w' :
  get_texts_from_chapter canto chapter w = (Returns texts, w1) ->
  get_names_from_chapter generate_content canto chapter w = (Returns tt, w') ->
  length (calls w') = length (calls w) + 2 * ceil_div (length texts) 20
  /\ (texts = [] -> w' = w1).
Proof.
  intros Ht Hrun. unfold get_names_from_chapter, bind in Hrun.
  rewrite Ht, Nat.sub_0_r in Hrun. split.
  - rewrite (while_batches_calls _ _ _ _ _ _ _ Hrun).
    pose proof (get_texts_from_chapter_world canto chapter w) as Hw.
    rewrite Ht in Hw. cbn [snd] in Hw. rewrite Hw. reflexivity.
  - intros ->. injection Hrun as <-. reflexivity.
Qed.

(** X10. When no catalog row matches, the chapter run raises the
    not-found [ValueError] right after the catalog file was written: no
    request is sent, and tables, service and all other files are as
    before. *)
Theorem X10_not_found_costs_nothing canto chapter w :
  let label := canto_chapter canto chapter in
  let catalog := select_chapters (contents_table w) in
  (forall c, In c catalog -> contains label (chapter_title c) = false) ->
  get_names_from_chapter generate_content canto chapter w
  = (Raises (ValueError (label ++ lit " not found in SB.")),
     set_files (<[lit "sb_chapters.json" := JsonText (chapters_json catalog)]>
                  (files w)) w).
Proof.
  intros label catalog H. unfold get_names_from_chapter, bind.
  rewrite get_texts_from_chapter_unfold. cbv zeta.
  fold label. fold catalog.
  rewrite (proj2 (find_none_iff _ catalog) H). reflexivity.
Qed.

Lemma sb_loop_empty_step fuel canto chapter w :
  select_chapters (contents_table w) = [] -> (canto <= 12)%Z ->
  sb_loop generate_content (S fuel) canto chapter w
  = sb_loop generate_content fuel (canto + 1)%Z 1%Z
      (set_files (<[lit "sb_chapters.json" := JsonText (JArr [])]> (files w)) w).
Proof.
  intros Hcat Hc. cbn [sb_loop].
  destruct (Z.leb_spec canto 12); [|lia].
  unfold get_names_from_chapter, bind.
  rewrite get_texts_from_chapter_unfold. cbv zeta. rewrite Hcat. reflexivity.
Qed.

Lemma sb_loop_empty_written k : forall fuel canto chapter w,
  select_chapters (contents_table w) = [] ->
  files w !! lit "sb_chapters.json" = Some (JsonText (JArr [])) ->
  (canto + Z.of_nat k = 13)%Z -> k < fuel ->
  sb_loop generate_content fuel canto chapter w = Some (Returns tt, w).
Proof.
  induction k as [|k IH]; intros fuel canto chapter w Hcat Hfile Hc Hfuel;
    (destruct fuel as [|fuel]; [lia|]).
  - cbn [sb_loop]. destruct (Z.leb_spec canto 12); [lia|reflexivity].
  - rewrite sb_loop_empty_step by (auto; lia).
    rewrite (insert_id _ _ _ Hfile).
    replace (set_files (files w) w) with w by (destruct w; reflexivity).
    apply IH; auto; lia.
Qed.

(** X11. On a content tree without any chapter row the driver goes
    through cantos 1 to 12 once, finds nothing, and returns: given 13
    steps of fuel or more the run ends normally, no request was sent, and
    the only change is the catalog file, which holds an empty list. *)
Theorem X11_driver_on_empty_catalog fuel w :
  select_chapters (contents_table w) = [] -> 13 <= fuel ->
  get_names_from_sb generate_content fuel w
  = Some (Returns tt,
          set_files (<[lit "sb_chapters.json" := JsonText (JArr [])]> (files w)) w).
Proof.
  intros Hcat Hfuel. unfold get_names_from_sb.
  destruct fuel as [|fuel]; [lia|].
  rewrite sb_loop_empty_step by (auto; lia).
  apply (sb_loop_empty_written 11); try lia.
  - exact Hcat.
  - apply lookup_insert_eq.
Qed.

End Requests.

(** ** The exclusion list of each batch *)

Section Reload.
Context {SvcState : Type}.
Variable generate_content : SvcState -> contents -> outcome response * SvcState.
Implicit Types (w : World SvcState).

Lemma names_to_exclude_store canto chapter w old names :
  holds_records (files w !! names_file canto chapter) old names ->
  names_to_exclude (Some (names_file canto chapter)) w
  = (Returns (map JStr names), w).
Proof.
  unfold names_to_exclude. rewrite truthy_names_file, load_existing_names_unfold.
  intros [(-> & _ & ->)|[(-> & _ & ->)|(-> & Hc)]]; try reflexivity.
  cbn [iterate]. rewrite Hc. reflexivity.
Qed.

Lemma process_batch_first_call canto chapter source_slice w names excl :
  names_to_exclude (Some (names_file canto chapter)) w = (Returns names, w) ->
  exclusion_text_of names = Returns excl ->
  exists rest,
    calls (snd (process_batch generate_content canto chapter source_slice w))
    = calls w
      ++ Single (FirstPrompt (join (lit " ") source_slice)
                   (source_ref_of canto chapter) excl) :: rest.
Proof.
  intros Hn Hx.
  destruct (extract_names_first_call generate_content
              (join (lit " ") source_slice) (source_ref_of canto chapter)
              _ _ _ _ Hn Hx) as [rest Hr].
  unfold process_batch, bind.
  destruct (extract_names _ _ _ _ w) as [[found|e] w1]; cbn [snd] in *.
  - destruct (extract_names_to_json_world canto chapter found w1) as (Hc & _).
    rewrite Hc. eauto.
  - eauto.
Qed.

Lemma process_batch_log canto chapter source_slice w :
  exists rest,
    calls (snd (process_batch generate_content canto chapter source_slice w))
    = calls w ++ rest.
Proof.
  unfold process_batch, bind.
  pose proof (extract_names_cases generate_content
                (join (lit " ") source_slice) (source_ref_of canto chapter)
                (Some (names_file canto chapter)) w)
    as (_ & _ & _ & requests & Hc & _).
  destruct (extract_names _ _ _ _ w) as [[found|e] w1]; cbn [snd] in *.
  - destruct (extract_names_to_json_world canto chapter found w1) as (Hc' & _).
    rewrite Hc'. eauto.
  - eauto.
Qed.

Lemma while_batches_log canto chapter texts remaining : forall curr w,
  exists rest,
    calls (snd (while_batches generate_content canto chapter texts remaining
                  curr w))
    = calls w ++ rest.
Proof.
  induction remaining as [|remaining IH]; intros curr w; cbn [while_batches].
  - exists []. symmetry. apply app_nil_r.
  - unfold bind.
    destruct (process_batch_log canto chapter (batch texts curr) w) as [r1 H1].
    destruct (process_batch _ _ _ _ w) as [[[]|e] w1]; cbn [snd] in *.
    + destruct (IH (S curr) w1) as [r2 H2]. exists (r1 ++ r2).
      rewrite H2, H1, app_assoc. reflexivity.
    + eauto.
Qed.

(** A batch whose two rounds are answered and whose records are written:
    the world after it. *)
Lemma process_batch_completes canto chapter source_slice w old names
    r1 s1 c r2 s2 found :
  let ref := source_ref_of canto chapter in
  let prompt1 :=
    FirstPrompt (join (lit " ") source_slice) ref (exclusion_of names) in
  let request1 := Single prompt1 in
  let request2 := Chat [user prompt1; c; user (SecondPrompt ref)] in
  holds_records (files w !! names_file canto chapter) old names ->
  generate_content (service w) request1 = (Returns r1, s1) ->
  first_candidate r1 = Returns c ->
  generate_content s1 request2 = (Returns r2, s2) ->
  parsed r2 = Some found ->
  dump_error w (JArr (old ++ map model_dump found)) = None ->
  process_batch generate_content canto chapter source_slice w
  = (Returns tt,
     set_files (<[names_file canto chapter :=
                    JsonText (JArr (old ++ map model_dump found))]> (files w))
       (answered (answered w s1 request1) s2 request2)).
Proof.
  intros ref prompt1 request1 request2 Hh H1 H2 H3 Hp Hd.
  unfold process_batch, bind. fold ref.
  rewrite (extract_names_rounds generate_content _ ref _ w _ _ _ _ _ _ _
             (names_to_exclude_store _ _ _ _ _ Hh)
             (exclusion_text_of_strs names) H1 H2 H3).
  rewrite Hp, extract_names_to_json_unfold. cbv zeta. cbn [files answered dump_error].
  destruct Hh as [(-> & -> & _)|[(-> & -> & _)|(-> & _)]];
    rewrite Hd; reflexivity.
Qed.

(** C2. The exclusion list is loaded by every batch, from the store file
    the pipeline names. For every batch, [load_existing_names] on that
    file returns a list; the first request of the batch carries the
    exclusion paragraph made of that list, and when the list cannot be
    joined (a name that is not a string) the batch raises before any
    request. The list is so refreshed between the batches of a run: when
    the first batch of a run over more than twenty units completes on a
    store that is missing, not JSON, or an array of records with string
    names, the second batch excludes the names stored before the run
    together with the names of the records the first batch appended. *)
Theorem C2_exclusions_reloaded_per_batch :
  (forall canto chapter source_slice w,
      exists names,
        load_existing_names (names_file canto chapter) w = (Returns names, w)
        /\ (forall excl,
              exclusion_text_of names = Returns excl ->
              exists rest,
                calls (snd (process_batch generate_content canto chapter
                              source_slice w))
                = calls w
                  ++ Single (FirstPrompt (join (lit " ") source_slice)
                               (source_ref_of canto chapter) excl) :: rest)
        /\ (forall e,
              exclusion_text_of names = Raises e ->
              process_batch generate_content canto chapter source_slice w
              = (Raises e, w)))
  /\ (forall canto chapter w texts w0 old names r1 s1 c r2 s2 found,
        let ref := source_ref_of canto chapter in
        let prompt1 :=
          FirstPrompt (join (lit " ") (batch texts 0)) ref (exclusion_of names) in
        let request1 := Single prompt1 in
        let request2 := Chat [user prompt1; c; user (SecondPrompt ref)] in
        get_texts_from_chapter canto chapter w = (Returns texts, w0) ->
        20 < length texts ->
        holds_records (files w !! names_file canto chapter) old names ->
        generate_content (service w) request1 = (Returns r1, s1) ->
        first_candidate r1 = Returns c ->
        generate_content s1 request2 = (Returns r2, s2) ->
        parsed r2 = Some found ->
        dump_error w (JArr (old ++ map model_dump found)) = None ->
        exists rest,
          calls (snd (get_names_from_chapter generate_content canto chapter w))
          = calls w ++ [request1; request2]
            ++ Single (FirstPrompt (join (lit " ") (batch texts 1)) ref
                         (exclusion_of (names ++ map name found))) :: rest).
Proof.
  split.
  - intros canto chapter source_slice w.
    destruct (load_existing_names_returns (names_file canto chapter) w)
      as [names Hn].
    exists names. split; [exact Hn|]. split.
    + intros excl Hx. apply process_batch_first_call with (names := names);
        [|exact Hx].
      unfold names_to_exclude. rewrite truthy_names_file. exact Hn.
    + intros e Hx. unfold process_batch, extract_names, bind, lift.
      unfold names_to_exclude. rewrite truthy_names_file, Hn, Hx. reflexivity.
  - intros canto chapter w texts w0 old names r1 s1 c r2 s2 found
           ref prompt1 request1 request2 Ht Hlen Hh H1 H2 H3 Hp Hd.
    pose proof (get_texts_from_chapter_world canto chapter w) as Hw.
    rewrite Ht in Hw. cbn [snd] in Hw.
    assert (Hf0 : files w0 !! names_file canto chapter
                  = files w !! names_file canto chapter).
    { rewrite Hw. cbn [files set_files].
      apply lookup_catalog_insert, names_file_not_catalog. }
    assert (Hs0 : service w0 = service w) by (rewrite Hw; reflexivity).
    assert (Hc0 : calls w0 = calls w) by (rewrite Hw; reflexivity).
    assert (Hd0 : dump_error w0 = dump_error w) by (rewrite Hw; reflexivity).
    unfold get_names_from_chapter, bind. rewrite Ht, Nat.sub_0_r.
    pose proof (ceil_div_20 (length texts)) as Hk.
    destruct (ceil_div (length texts) 20) as [|[|k]]; [lia|lia|].
    cbn [while_batches]. unfold bind at 1.
    rewrite <- Hf0 in Hh. rewrite <- Hs0 in H1. rewrite <- Hd0 in Hd.
    rewrite (process_batch_completes canto chapter (batch texts 0) w0 old names
               r1 s1 c r2 s2 found Hh H1 H2 H3 Hp Hd).
    fold ref. fold prompt1. fold request1. fold request2.
    set (w2 := set_files _ _).
    assert (Hh2 : holds_records (files w2 !! names_file canto chapter)
                    (old ++ map model_dump found) (names ++ map name found)).
    { right. right. subst w2. cbn [files set_files]. rewrite lookup_insert_eq.
      split; [reflexivity|]. rewrite map_app. apply comprehension_app.
      - destruct Hh as [(_ & -> & ->)|[(_ & -> & ->)|(_ & Hc)]];
          [reflexivity|reflexivity|exact Hc].
      - apply comprehension_model_dump. }
    assert (Hc2 : calls w2 = calls w ++ [request1; request2]).
    { subst w2. cbn [calls set_files answered]. rewrite Hc0, <- app_assoc.
      reflexivity. }
    unfold bind.
    destruct (process_batch_first_call canto chapter (batch texts 1) w2 _ _
                (names_to_exclude_store _ _ _ _ _ Hh2)
                (exclusion_text_of_strs _)) as [rest1 Hr1].
    fold ref in Hr1.
    destruct (process_batch _ _ _ _ w2) as [[[]|e] w3]; cbn [snd] in *.
    + destruct (while_batches_log canto chapter texts k 2 w3) as [rest2 Hr2].
      exists (rest1 ++ rest2). rewrite Hr2, Hr1, Hc2, <- !app_assoc.
      reflexivity.
    + exists rest1. rewrite Hr1, Hc2, <- !app_assoc. reflexivity.
Qed.

(** X16. What an append does, for every state of the store file. On a
    missing file or text that is not JSON it writes the new records; on a
    JSON array it writes the array followed by the new records, in their
    order and with duplicates kept. When the write raises, the file is
    left cut short. In every other state of the file the call raises
    before it writes, and the world is as before. *)
Theorem X16_append_cases canto chapter new w :
  let path := names_file canto chapter in
  let persist old :=
    match dump_error w (JArr (old ++ map model_dump new)) with
    | None =>
        (Returns tt,
         set_files (<[path := JsonText (JArr (old ++ map model_dump new))]>
                      (files w)) w)
    | Some e => (Raises e, set_files (<[path := Malformed]> (files w)) w)
    end in
  let result := extract_names_to_json canto chapter (Some new) w in
  (files w !! path = None -> result = persist [])
  /\ (files w !! path = Some Malformed -> result = persist [])
  /\ (forall old, files w !! path = Some (JsonText (JArr old)) ->
                  result = persist old)
  /\ (files w !! path = Some Unreadable -> result = (Raises PermissionError, w))
  /\ (files w !! path = Some Undecodable ->
      result = (Raises UnicodeDecodeError, w))
  /\ (forall msg, files w !! path = Some (IntegerTooLong msg) ->
                  result = (Raises (ValueError msg), w))
  /\ (files w !! path = Some NestedTooDeep -> result = (Raises RecursionError, w))
  /\ (forall v, files w !! path = Some (JsonText v) ->
                (forall old, v <> JArr old) ->
                result = (Raises AttributeError, w)).
Proof.
  cbv zeta. rewrite extract_names_to_json_unfold. cbv zeta.
  repeat split; try (intros ->; reflexivity); try (intros ? ->; reflexivity).
  intros v -> Hv. destruct v; try reflexivity. destruct (Hv items eq_refl).
Qed.

End Reload.

(** ** The further properties on the sample data *)

Lemma X1_units_witness :
  startswith_any marker_prefixes (lit "TEXT 1") = true
  /\ lit "TEXT 1" <> [] /\ strip (lit "TEXT 1") = lit "TEXT 1".
Proof.
  apply (X1_units_start_with_prefix [lit "a TEXT 1 b"] (lit "TEXT 1")).
  vm_compute. left. reflexivity.
Defined.

Lemma X3_marker_unit_witness :
  marker_token (slice (join (lit " ") (map Re.sub_tags [lit "a TEXT 1 b"])) 2 (2 + 6))
  /\ In (slice (join (lit " ") (map Re.sub_tags [lit "a TEXT 1 b"])) 2 (2 + 6))
        (segment [lit "a TEXT 1 b"]).
Proof.
  apply (X3_every_marker_is_a_unit [lit "a TEXT 1 b"] 2 6).
  vm_compute. left. reflexivity.
Defined.

Lemma X4_markup_witness :
  Re.sub_tags (lit "om " ++ "<"%char :: lit "i" ++ ">"%char :: lit "namo")
  = lit "om " ++ " "%char :: Re.sub_tags (lit "namo").
Proof.
  apply (proj2 (proj2 X4_markup_removal));
    vm_compute; intuition discriminate.
Defined.

Lemma C2_exclusions_witness :
  let ref := source_ref_of 1 2 in
  let prompt1 :=
    FirstPrompt (join (lit " ") (batch Sample.units 0)) ref NoExclusion in
  exists rest,
    calls (snd (get_names_from_chapter Sample.stub 1 2 (Sample.world ∅)))
    = [] ++ [Single prompt1;
             Chat [user prompt1; Sample.model_reply; user (SecondPrompt ref)]]
      ++ Single (FirstPrompt (join (lit " ") (batch Sample.units 1)) ref
                   (DoNotInclude (lit "Hari"))) :: rest.
Proof.
  cbv zeta.
  apply (proj2 (C2_exclusions_reloaded_per_batch Sample.stub) 1%Z 2%Z
           (Sample.world ∅) Sample.units
           (snd (get_texts_from_chapter 1 2 (Sample.world ∅)))
           [] [] (Sample.reply [Sample.govinda]) tt Sample.model_reply
           (Sample.reply [Sample.hari]) tt [Sample.hari]).
  - vm_compute. reflexivity.
  - vm_compute. lia.
  - left. repeat split.
  - reflexivity.
  - reflexivity.
  - reflexivity.
  - reflexivity.
  - reflexivity.
Defined.

Lemma X5_stores_witness :
  let w := Sample.world {[ names_file 1 1 := JsonText (JArr [model_dump Sample.govinda]) ]} in
  let w' := match get_names_from_sb Sample.stub 20 w with
            | Some (_, w2) => w2
            | None => w
            end in
  exists added,
    files w' !! names_file 1 1
    = Some (JsonText (JArr ([model_dump Sample.govinda] ++ added))).
Proof.
  cbv zeta.
  apply (proj2 (X5_stored_records_are_kept Sample.stub) 20
           (Sample.world
              {[ names_file 1 1 := JsonText (JArr [model_dump Sample.govinda]) ]})
           (Returns tt) _).
  - intros v. reflexivity.
  - vm_compute. reflexivity.
  - vm_compute. discriminate.
  - reflexivity.
Defined.

Lemma X6_extraction_witness :
  files (snd (extract_names Sample.stub (lit "TEXT 1") (lit "Canto 1") None
                (Sample.world ∅)))
  = files (Sample.world ∅).
Proof.
  apply (proj1 (X6_extraction_frame Sample.stub (lit "TEXT 1") (lit "Canto 1")
                  None (Sample.world ∅))).
Defined.

Lemma X7_non_string_name_witness :
  let w := Sample.world {[ names_file 1 1 := Sample.numbered_store ]} in
  extract_names Sample.stub (lit "TEXT 1") (lit "Canto 1") (Some (names_file 1 1)) w
  = (Raises TypeError, w).
Proof.
  cbv zeta.
  apply (X7_non_string_name_stops_extraction Sample.stub (lit "TEXT 1")
           (lit "Canto 1") (Some (names_file 1 1))
           (Sample.world {[ names_file 1 1 := Sample.numbered_store ]})
           [JNum 7] (JNum 7)).
  - reflexivity.
  - left. reflexivity.
  - discriminate.
Defined.

Lemma X8_unparsed_witness :
  let w := Sample.world ∅ in
  let src := join (lit " ") [lit "TEXT 1"] in
  let ref := source_ref_of 1 1 in
  let request1 := Single (FirstPrompt src ref NoExclusion) in
  let request2 :=
    Chat [user (FirstPrompt src ref NoExclusion); Sample.model_reply;
          user (SecondPrompt ref)] in
  process_batch Sample.stub_unparsed 1 1 [lit "TEXT 1"] w
  = (Raises TypeError, answered (answered w tt request1) tt request2)
  /\ files (snd (process_batch Sample.stub_unparsed 1 1 [lit "TEXT 1"] w)) = files w.
Proof.
  cbv zeta.
  apply (X8_unparsed_response_writes_nothing Sample.stub_unparsed 1 1
           [lit "TEXT 1"] (Sample.world ∅) [] NoExclusion
           (Sample.reply [Sample.govinda]) tt Sample.model_reply
           Sample.unparsed_reply tt); reflexivity.
Defined.

Lemma X9_requests_witness :
  let w := Sample.world ∅ in
  length (calls (snd (get_names_from_chapter Sample.stub 1 2 w)))
  = length (calls w) + 2 * ceil_div (length Sample.units) 20
  /\ (Sample.units = [] ->
      snd (get_names_from_chapter Sample.stub 1 2 w)
      = snd (get_texts_from_chapter 1 2 w)).
Proof.
  cbv zeta.
  apply (X9_requests_of_a_run Sample.stub 1 2 (Sample.world ∅) Sample.units
           (snd (get_texts_from_chapter 1 2 (Sample.world ∅)))
           (snd (get_names_from_chapter Sample.stub 1 2 (Sample.world ∅))));
    vm_compute; reflexivity.
Defined.

Lemma X10_not_found_witness :
  let w := Sample.world ∅ in
  get_names_from_chapter Sample.stub 13 1 w
  = (Raises (ValueError (canto_chapter 13 1 ++ lit " not found in SB.")),
     set_files (<[lit "sb_chapters.json" :=
                   JsonText (chapters_json (select_chapters (contents_table w)))]>
                  (files w)) w).
Proof.
  cbv zeta.
  apply (X10_not_found_costs_nothing Sample.stub 13 1 (Sample.world ∅)).
  intros c Hc. vm_compute in Hc.
  destruct Hc as [<-|[<-|[<-|[]]]]; reflexivity.
Defined.

Lemma X11_empty_catalog_witness :
  get_names_from_sb Sample.stub 13 Sample.empty_world
  = Some (Returns tt,
          set_files (<[lit "sb_chapters.json" := JsonText (JArr [])]>
                       (files Sample.empty_world)) Sample.empty_world).
Proof.
  apply (X11_driver_on_empty_catalog Sample.stub 13 Sample.empty_world).
  - reflexivity.
  - lia.
Defined.

Lemma X12_store_files_witness : names_file 1 11 <> names_file 11 1.
Proof.
  intros E.
  destruct (proj1 X12_store_files_distinct 1%Z 11%Z 11%Z 1%Z E) as [H _].
  discriminate H.
Defined.

Lemma X13_other_stores_witness :
  let w := Sample.world {[ names_file 1 1 := JsonText (JArr [model_dump Sample.govinda]) ]} in
  files (snd (get_names_from_chapter Sample.stub 1 2 w)) !! names_file 1 1
  = files w !! names_file 1 1.
Proof.
  cbv zeta.
  apply (X13_other_stores_untouched Sample.stub 1 2 1 1). discriminate.
Defined.

Lemma X14_no_candidate_witness :
  extract_names Sample.stub_no_candidate (lit "TEXT 1") (lit "Canto 1") None
    (Sample.world ∅)
  = (Raises TypeError,
     answered (Sample.world ∅) tt
       (Single (FirstPrompt (lit "TEXT 1") (lit "Canto 1") NoExclusion))).
Proof.
  apply (proj1 (X14_no_candidate_no_second_round Sample.stub_no_candidate
                  (lit "TEXT 1") (lit "Canto 1") None (Sample.world ∅) []
                  NoExclusion
                  {| candidates := None; response_text := lit ""; parsed := None |}
                  tt eq_refl eq_refl eq_refl)).
  reflexivity.
Defined.

Lemma X16_append_witness :
  (let w := Sample.world
              {[ names_file 1 1 := JsonText (JArr [model_dump Sample.govinda]) ]} in
   extract_names_to_json 1 1 (Some [Sample.govinda]) w
   = (Returns tt,
      set_files (<[names_file 1 1 :=
                     JsonText (JArr [model_dump Sample.govinda;
                                     model_dump Sample.govinda])]> (files w)) w))
  /\ (let w := Sample.surrogate_world
                 {[ names_file 1 1 := JsonText (JArr [model_dump Sample.govinda]) ]} in
      extract_names_to_json 1 1 (Some [Sample.govinda]) w
      = (Raises UnicodeEncodeError,
         set_files (<[names_file 1 1 := Malformed]> (files w)) w)).
Proof.
  cbv zeta. split.
  - apply (proj1 (proj2 (proj2
             (X16_append_cases 1 1 [Sample.govinda]
                (Sample.world
                   {[ names_file 1 1 :=
                        JsonText (JArr [model_dump Sample.govinda]) ]}))))
             [model_dump Sample.govinda]).
    vm_compute. reflexivity.
  - apply (proj1 (proj2 (proj2
             (X16_append_cases 1 1 [Sample.govinda]
                (Sample.surrogate_world
                   {[ names_file 1 1 :=
                        JsonText (JArr [model_dump Sample.govinda]) ]}))))
             [model_dump Sample.govinda]).
    vm_compute. reflexivity.
Defined.

(** ** The catalog query *)

Section Catalog.

Lemma flat_map_none {A B} (g : A -> list B) l :
  (forall a, In a l -> g a = []) -> flat_map g l = [].
Proof.
  induction l as [|a l IH]; intros H; simpl; [reflexivity|].
  rewrite (H a) by (simpl; auto). apply IH. intros a' Ha. apply H. simpl. auto.
Qed.

Lemma NoDup_map_inj_in {A B} (g : A -> B) l a a' :
  List.NoDup (map g l) -> In a l -> In a' l -> g a = g a' -> a = a'.
Proof.
  induction l as [|x l IH]; simpl; intros Hnd Ha Ha' E; [destruct Ha|].
  apply List.NoDup_cons_iff in Hnd as [Hx Hnd].
  destruct Ha as [->|Ha], Ha' as [->|Ha']; auto.
  - exfalso. apply Hx. rewrite E. apply in_map, Ha'.
  - exfalso. apply Hx. rewrite <- E. apply in_map, Ha.
Qed.

(** With unique record ids a node is joined with one parent row at most. *)
Lemma join_at_most_once {B} (table : list node) (key : Z)
    (cond : node -> bool) (x : node -> B) :
  (forall par, cond par = true -> record par = key) ->
  List.NoDup (map record table) ->
  length (flat_map (fun par => if cond par then [x par] else []) table) <= 1.
Proof.
  intros Hkey. induction table as [|a l IH]; intros Hnd; simpl; [lia|].
  apply List.NoDup_cons_iff in Hnd as [Ha Hl].
  destruct (cond a) eqn:E.
  - rewrite flat_map_none; [simpl; lia|].
    intros a' Ha'. destruct (cond a') eqn:E'; [|reflexivity].
    exfalso. apply Ha. rewrite (Hkey a E), <- (Hkey a' E'). apply in_map, Ha'.
  - simpl. apply IH, Hl.
Qed.

Lemma select_chapters_records table : forall l,
  List.NoDup (map record table) -> List.NoDup (map record l) ->
  List.NoDup (map first_text
           (flat_map (fun child =>
              flat_map (fun par =>
                if (parent child =? record par)%Z && (level child =? 6)%Z
                   && sb_title (title child)
                then [ {| canto_title := title par; chapter_title := title child;
                          first_text := record child;
                          last_text := next_sibling child |} ]
                else []) table) l))
  /\ (forall z, In z (map first_text
           (flat_map (fun child =>
              flat_map (fun par =>
                if (parent child =? record par)%Z && (level child =? 6)%Z
                   && sb_title (title child)
                then [ {| canto_title := title par; chapter_title := title child;
                          first_text := record child;
                          last_text := next_sibling child |} ]
                else []) table) l)) -> In z (map record l)).
Proof.
  intros l Htable. induction l as [|child l IH]; intros Hl.
  - simpl. split; [constructor|tauto].
  - apply List.NoDup_cons_iff in Hl as [Hc Hl]. destruct (IH Hl) as [IH1 IH2].
    cbn [flat_map]. rewrite map_app.
    set (inner := flat_map _ table).
    assert (Hinner : forall z, In z (map first_text inner) -> z = record child).
    { intros z Hz. apply in_map_iff in Hz as (c & <- & Hc').
      apply in_flat_map in Hc' as (par & _ & Hc').
      destruct (_ && _); [|destruct Hc']. destruct Hc' as [<-|[]]. reflexivity. }
    assert (Hlen : length inner <= 1).
    { subst inner. apply (join_at_most_once table (parent child)); [|exact Htable].
      intros par E. apply andb_true_iff in E as [E _].
      apply andb_true_iff in E as [E _]. apply Z.eqb_eq in E. congruence. }
    split.
    + apply List.NoDup_app; [|exact IH1|].
      * destruct inner as [|c1 [|c2 inner]]; simpl in *; try lia.
        -- constructor.
        -- constructor; [simpl; tauto|constructor].
      * intros z Hz Hz'. apply Hinner in Hz. subst z.
        apply Hc, IH2, Hz'.
    + intros z Hz. apply in_app_or in Hz as [Hz|Hz].
      * left. symmetry. apply Hinner, Hz.
      * right. apply IH2, Hz.
Qed.

(** X15. When the record ids of the content tree are unique, no two rows
    of the chapter catalog start at the same record: every node gives one
    row at most, so two rows that match a label are two different nodes. *)
Theorem X15_catalog_rows_unique table :
  List.NoDup (map record table) ->
  List.NoDup (map first_text (select_chapters table))
  /\ (forall c, In c (select_chapters table) ->
        exists child, In child table /\ first_text c = record child
                      /\ last_text c = next_sibling child
                      /\ chapter_title c = title child
                      /\ level child = 6%Z).
Proof.
  intros Hnd. split.
  - apply (select_chapters_records table table Hnd Hnd).
  - intros c Hc. unfold select_chapters in Hc.
    apply in_flat_map in Hc as (child & Hchild & Hc).
    apply in_flat_map in Hc as (par & _ & Hc).
    destruct (_ && _) eqn:E; [|destruct Hc]. destruct Hc as [<-|[]].
    exists child. repeat split; auto.
    apply andb_true_iff in E as [E _]. apply andb_true_iff in E as [_ E].
    apply Z.eqb_eq, E.
Qed.

End Catalog.

Lemma X15_catalog_witness :
  List.NoDup (map first_text (select_chapters (contents_table (Sample.world ∅)))).
Proof.
  apply (proj1 (X15_catalog_rows_unique (contents_table (Sample.world ∅))
                  ltac:(vm_compute; repeat (constructor;
                          [simpl; intuition discriminate|]); constructor))).
Defined.
